(** * ImageURLChecker: a shallow embedding of [scripts/check_image_404s.py]

    The script reads a table, probes the URL found in one column of every
    row (HEAD first, GET as a fall-back, bounded retries with a linear
    back-off), and writes the rows whose probe outcome counts as broken.

    Layout of this file:
    - [Py]        the Python values, strings and exceptions the script handles;
    - [Net]       the [requests] calls and [time.sleep], as a trace monad over
                  an arbitrary network;
    - [Probe]     [check_one];
    - [Pool]      the [ThreadPoolExecutor] / [as_completed] part of [main];
    - [Report]    data frames, the file system, and [main];
    - [Scenario]  concrete networks, tables and file systems;
    - [Traces]    the shape of the trace of a probe;
    - [Written]   the frame a run writes, and what lets it be written;
    - the lemmas and theorems about them, component by component. *)

From Stdlib Require Import ZArith QArith Ascii String List DecimalString.
From stdpp Require Import base decidable option list gmap fin_maps.

Local Open Scope string_scope.
Local Open Scope Z_scope.
Local Open Scope list_scope.

(** ** Python values *)

Module Py.

(** The objects that flow through the script: table cells, URLs and probe
    statuses.  A status is an [int] or a [str] (the annotation of
    [check_one] says [int | str]); a function that runs off its end yields
    [None]; an empty table cell is read by pandas as the float [nan]. *)
Inductive value : Type :=
  | VInt (z : Z)
  | VStr (s : string)
  | VNone
  | VNaN.

#[global] Instance value_eq_dec : EqDecision value.
Proof. solve_decision. Defined.

(** [isinstance(v, str)] *)
Definition isinstance_str (v : value) : bool :=
  match v with VStr _ => true | _ => false end.

(** Strings are sequences of code points; the model keeps the code points
    below 256, one per [ascii].  [str.isspace] on that range: the ASCII
    controls 9-13 and 28-31, the space, NEL (133) and NBSP (160). *)
Definition isspace (c : ascii) : bool :=
  let n := N_of_ascii c in
  (((9 <=? n) && (n <=? 13)) || ((28 <=? n) && (n <=? 32))
   || (n =? 133) || (n =? 160))%N.

(** [str.lstrip()] on the characters: drop the leading white space. *)
Fixpoint lstrip_chars (l : list ascii) : list ascii :=
  match l with
  | [] => []
  | c :: rest => if isspace c then lstrip_chars rest else l
  end.

Definition rstrip_chars (l : list ascii) : list ascii :=
  rev (lstrip_chars (rev l)).

Definition strip_chars (l : list ascii) : list ascii :=
  rstrip_chars (lstrip_chars l).

(** [s.strip()]. *)
Definition strip (s : string) : string :=
  string_of_list_ascii (strip_chars (list_ascii_of_string s)).

(** Truth value of a string: [not s] holds of the empty string only. *)
Definition str_truthy (s : string) : bool :=
  match s with EmptyString => false | String _ _ => true end.

(** Exceptions.  The script has two handlers, [except
    requests.RequestException] in [check_one] and [except Exception] around
    [future.result()], so an exception is modelled by the name of its type
    and by whether that type derives from [requests.RequestException];
    every exception derives from [Exception]. *)
Record exception : Type := Exc {
  is_RequestException : bool;
  type_name : string
}.

#[global] Instance exception_eq_dec : EqDecision exception.
Proof. solve_decision. Defined.

(** What a call yields: a value or a raised exception. *)
Inductive result (A : Type) : Type :=
  | Ok (a : A)
  | Raised (e : exception).
Arguments Ok {A} a.
Arguments Raised {A} e.

(** [str(n)] for a length. *)
Definition str_of_nat (n : nat) : string :=
  NilEmpty.string_of_uint (Nat.to_uint n).

End Py.
Export Py.

(** ** The network and the clock *)

Module Net.

Inductive http_method : Type := HEAD | GET.

#[global] Instance http_method_eq_dec : EqDecision http_method.
Proof. solve_decision. Defined.

(** The arguments of one [requests.head] / [requests.get] call. *)
Record request : Type := Request {
  req_method : http_method;
  req_url : string;
  allow_redirects : bool;
  req_timeout : Z;
  req_stream : bool
}.

(** A [requests.Response], of which the script reads [status_code] only. *)
Record response : Type := Response { status_code : Z }.

(** What the script does to the outside world, in the order it does it. *)
Inductive event : Type :=
  | ECall (r : request)
  | ESleep (seconds : Q).

Definition trace : Type := list event.

(** The network answers a request, knowing everything that happened before:
    with a response or by raising.  Theorems quantify over all networks. *)
Definition network : Type := trace -> request -> result response.

(** A computation reads the trace so far and extends it. *)
Definition prog (A : Type) : Type := trace -> trace * result A.

#[global] Instance prog_ret : MRet prog :=
  fun A a t => (t, Ok a).

#[global] Instance prog_bind : MBind prog :=
  fun A B f m t =>
    match m t with
    | (t', Ok a) => f a t'
    | (t', Raised e) => (t', Raised e)
    end.

Definition raise {A} (e : exception) : prog A :=
  fun t => (t, Raised e).

(** [try: body  except ... as e: handler e].  A handler for one class of
    exceptions re-raises the others in [handler]. *)
Definition try_except {A} (body : prog A) (handler : exception -> prog A)
  : prog A :=
  fun t =>
    match body t with
    | (t', Ok a) => (t', Ok a)
    | (t', Raised e) => handler e t'
    end.

Definition call (net : network) (r : request) : prog response :=
  fun t => (t ++ [ECall r], net t r).

(** [requests.head(url, allow_redirects=True, timeout=timeout)] *)
Definition head_request (url : string) (timeout : Z) : request :=
  Request HEAD url true timeout false.

(** [requests.get(url, allow_redirects=True, timeout=timeout, stream=True)] *)
Definition get_request (url : string) (timeout : Z) : request :=
  Request GET url true timeout true.

Definition requests_head (net : network) (url : string) (timeout : Z)
  : prog response := call net (head_request url timeout).

Definition requests_get (net : network) (url : string) (timeout : Z)
  : prog response := call net (get_request url timeout).

Definition time_sleep (seconds : Q) : prog unit :=
  fun t => (t ++ [ESleep seconds], Ok tt).

(** Running a computation from the empty trace. *)
Definition run {A} (p : prog A) : trace * result A := p [].

End Net.
Export Net.

(** ** The probe: [check_one] *)

Module Probe.

Definition DEFAULT_TIMEOUT : Z := 10.
Definition MAX_WORKERS : Z := 24.
Definition RETRIES : nat := 2.

(** The three shapes of a probe outcome, as the script represents them. *)
Definition StatusCode (s : Z) : value := VInt s.
Definition EmptySentinel : value := VStr "empty".
Definition ErrorSentinel (kind : string) : value := VStr ("error: " ++ kind)%string.

(** [r.status_code == 405 or (r.status_code >= 400 and r.status_code != 404)] *)
Definition wants_get (status : Z) : bool :=
  (status =? 405) || ((status >=? 400) && negb (status =? 404)).

(** [0.5 * (attempt + 1)] *)
Definition backoff (attempt : nat) : Q :=
  (1 # 2) * inject_Z (Z.of_nat attempt + 1).

(** The body of the [try] of one attempt. *)
Definition attempt_body (net : network) (url : string) (timeout : Z)
  : prog value :=
  r ← requests_head net url timeout;
  r ← (if wants_get (status_code r)
       then requests_get net url timeout
       else mret r);
  mret (VInt (status_code r)).

(** [for attempt in attempts: try: ... except requests.RequestException ...],
    followed by the end of the function, where Python returns [None]. *)
Fixpoint retry_loop (net : network) (url : string) (timeout : Z)
    (attempts : list nat) : prog value :=
  match attempts with
  | [] => mret VNone
  | attempt :: rest =>
      try_except (attempt_body net url timeout)
        (fun e =>
           if is_RequestException e then
             if (attempt <? RETRIES)%nat then
               _ ← time_sleep (backoff attempt);
               retry_loop net url timeout rest
             else mret (VStr ("error: " ++ type_name e)%string)
           else raise e)
  end.

(** [range(RETRIES + 1)] *)
Definition attempts_range : list nat := seq 0 (RETRIES + 1).

(** [not isinstance(url, str) or not url.strip()] *)
Definition is_blank (url : value) : bool :=
  match url with
  | VStr s => negb (str_truthy (strip s))
  | _ => true
  end.

Definition check_one (url : value) (timeout : Z) (net : network)
  : prog value :=
  match url with
  | VStr s =>
      if negb (str_truthy (strip s)) then mret (VStr "empty")
      else retry_loop net (strip s) timeout attempts_range
  | _ => mret (VStr "empty")
  end.

(** The iterations of the loop, as a step relation on its state (the
    attempt about to start and the trace so far): the loop starts attempt
    [0] on the empty trace, and goes from attempt [k] to [k + 1], after a
    sleep, when attempt [k] raised a [RequestException] and [k < RETRIES]. *)
Inductive reaches (net : network) (url : string) (timeout : Z)
  : nat -> trace -> Prop :=
  | reaches_first : reaches net url timeout 0 []
  | reaches_retry k t t' e :
      reaches net url timeout k t ->
      (k < RETRIES)%nat ->
      attempt_body net url timeout t = (t', Raised e) ->
      is_RequestException e = true ->
      reaches net url timeout (S k) (t' ++ [ESleep (backoff k)]).

(** The number of attempts a trace shows: each attempt starts with its one
    HEAD request. *)
Definition is_head (ev : event) : bool :=
  match ev with
  | ECall r => match req_method r with HEAD => true | GET => false end
  | ESleep _ => false
  end.

Definition attempts_made (t : trace) : nat := length (List.filter is_head t).

(** The sleeps of a trace, in order. *)
Definition sleeps (t : trace) : list Q :=
  omap (fun ev => match ev with ESleep q => Some q | ECall _ => None end) t.

(** A well-formed outcome: an integer status, ["empty"], or ["error: "]
    followed by a type name. *)
Definition well_formed_outcome (v : value) : Prop :=
  (exists s, v = StatusCode s) \/ v = EmptySentinel
  \/ (exists kind, v = ErrorSentinel kind).

(** A network whose calls return a response or raise a
    [RequestException], and nothing else. *)
Definition transport_only (net : network) : Prop :=
  forall t r e, net t r = Raised e -> is_RequestException e = true.

(** The requests of a trace all go to [url]. *)
Definition calls_only (u : string) (t : trace) : Prop :=
  forall r, In (ECall r) t -> req_url r = u.

(** What [check_one] can end with: a well-formed outcome, or an exception
    of the network that is not a [RequestException]. *)
Definition probe_outcome (net : network) (r : result value) : Prop :=
  match r with
  | Ok v => well_formed_outcome v
  | Raised e => is_RequestException e = false /\ exists t r, net t r = Raised e
  end.

End Probe.
Export Probe.

(** ** The pool: submitting the probes and collecting their statuses *)

Module Pool.

(** A [concurrent.futures.Future].  [future_id] stands for the identity of
    the object (futures hash by identity): the [k]-th future submitted has
    identity [k].  The future holds what its task returned or raised, and
    the model keeps the trace of the task's network activity beside it. *)
Record future : Type := Future {
  future_id : nat;
  future_result : result value;
  future_trace : trace
}.

(** [ex.submit(check_one, url, timeout)].  Every task talks to the network
    as the network answers that task: [net] is the network seen by it. *)
Definition submit (id : nat) (net : network) (url : value) (timeout : Z)
  : future :=
  let '(t, r) := run (check_one url timeout net) in
  Future id r t.

(** [{ex.submit(check_one, url, timeout): i for i, url in enumerate(urls)}]:
    a dict in insertion order, its keys pairwise distinct objects. *)
Definition submit_all (nets : nat -> network) (urls : list value)
    (timeout : Z) : list (future * nat) :=
  imap (fun i url => (submit i (nets i) url timeout, i)) urls.

(** [d[key]] for a dict keyed by futures; a missing key raises [KeyError]. *)
Fixpoint dict_get (d : list (future * nat)) (key : future) : result nat :=
  match d with
  | [] => Raised (Exc false "KeyError")
  | (k, v) :: rest =>
      if (future_id k =? future_id key)%nat then Ok v else dict_get rest key
  end.

(** [as_completed(fs)] yields every future of [fs] once, in the order in
    which the tasks finish.  That order is not the program's choice: it is
    the argument [order], the positions of the futures in finishing order,
    and the theorems hold for every permutation. *)
Definition as_completed (fs : list future) (order : list nat) : list future :=
  omap (fun k => fs !! k) order.

(** [try: status = future.result()
     except Exception as e: status = f"error: {type(e).__name__}"] *)
Definition status_of (fut : future) : value :=
  match future_result fut with
  | Ok status => status
  | Raised e => VStr ("error: " ++ type_name e)%string
  end.

(** The [for future in as_completed(future_to_idx)] loop, [results] being
    the list it appends to. *)
Fixpoint collect (future_to_idx : list (future * nat))
    (completed : list future) (results : list (nat * value))
  : result (list (nat * value)) :=
  match completed with
  | [] => Ok results
  | fut :: rest =>
      match dict_get future_to_idx fut with
      | Raised e => Raised e
      | Ok i => collect future_to_idx rest (results ++ [(i, status_of fut)])
      end
  end.

(** [{i: s for i, s in results}]: a later pair overwrites an earlier one. *)
Definition status_map_of (results : list (nat * value)) : gmap nat value :=
  foldl (fun m '(i, s) => <[i:=s]> m) ∅ results.

(** The [with ThreadPoolExecutor(max_workers=workers) as ex:] block: the
    network activity of the tasks, one trace per task, and [results].  The
    constructor raises [ValueError] unless [workers] is positive. *)
Definition dispatch (nets : nat -> network) (order : list nat)
    (urls : list value) (workers timeout : Z)
  : list trace * result (list (nat * value)) :=
  if workers <=? 0 then ([], Raised (Exc false "ValueError"))
  else
    let future_to_idx := submit_all nets urls timeout in
    (map future_trace (future_to_idx.*1),
     collect future_to_idx (as_completed (future_to_idx.*1) order) []).

(** The dispatcher's result set: the [status_map] of a finished dispatch. *)
Definition result_set (nets : nat -> network) (order : list nat)
    (urls : list value) (workers timeout : Z) : result (gmap nat value) :=
  match (dispatch nets order urls workers timeout).2 with
  | Ok results => Ok (status_map_of results)
  | Raised e => Raised e
  end.

(** The status task [i] ends with: what [check_one] returned, or the
    sentinel of what it raised. *)
Definition task_status (net : network) (url : value) (timeout : Z) : value :=
  match (run (check_one url timeout net)).2 with
  | Ok status => status
  | Raised e => VStr ("error: " ++ type_name e)%string
  end.

(** The pairs the loop has to produce, in submission order. *)
Definition expected_results (nets : nat -> network) (urls : list value)
    (timeout : Z) : list (nat * value) :=
  imap (fun i url => (i, task_status (nets i) url timeout)) urls.

(** A dict in which every future is filed under its own identity. *)
Definition filed_by_id (d : list (future * nat)) : Prop :=
  Forall (fun entry => future_id entry.1 = entry.2) d.

End Pool.
Export Pool.

(** ** The report: data frames and [main] *)

Module Report.

(** A pandas [DataFrame] as [pd.read_csv] returns it: the named columns
    in order, the index (one label per row) and the rows.  When no data
    row has more fields than the header, the index is [0 .. len - 1];
    when the data rows have one field more, pandas takes their first
    field for the index.  A cell missing from a short row reads as
    [nan]. *)
Record dataframe : Type := DataFrame {
  columns : list string;
  index : list value;
  rows : list (list value)
}.

(** The default index of [n] rows: [RangeIndex(n)]. *)
Definition range_index (n : nat) : list value :=
  map (fun i => VInt (Z.of_nat i)) (seq 0 n).

(** Every row has one cell per column. *)
Definition rectangular (df : dataframe) : Prop :=
  Forall (fun row => length row = length (columns df)) (rows df).

(** Every row has its index label. *)
Definition well_indexed (df : dataframe) : Prop :=
  length (index df) = length (rows df).

(** Position of the first column of that name. *)
Fixpoint column_pos (name : string) (cols : list string) : option nat :=
  match cols with
  | [] => None
  | c :: rest =>
      if String.eqb c name then Some 0%nat
      else S <$> column_pos name rest
  end.

(** [name in df.columns] *)
Definition has_column (df : dataframe) (name : string) : bool :=
  match column_pos name (columns df) with Some _ => true | None => false end.

Definition cell (p : nat) (row : list value) : value :=
  default VNaN (row !! p).

(** [df[name].tolist()] (for a column that exists) *)
Definition column_values (df : dataframe) (name : string) : list value :=
  match column_pos name (columns df) with
  | Some p => map (cell p) (rows df)
  | None => []
  end.

(** A value as a new last cell of a row, and in place of cell [p]. *)
Definition append_label (row : list value) (label : value) : list value :=
  row ++ [label].

Definition overwrite_label (p : nat) (row : list value) (label : value)
  : list value := <[p:=label]> row.

(** [df[name] = values], the values taken by position: an existing column
    is overwritten in place, a new one is added after the last column. *)
Definition set_column (df : dataframe) (name : string) (values : list value)
  : dataframe :=
  match column_pos name (columns df) with
  | Some p =>
      DataFrame (columns df) (index df)
        (zip_with (overwrite_label p) (rows df) values)
  | None =>
      DataFrame (columns df ++ [name]) (index df)
        (zip_with append_label (rows df) values)
  end.

(** Selection by a boolean mask aligned with the rows. *)
Fixpoint select {A} (l : list A) (mask : list bool) : list A :=
  match l, mask with
  | x :: l', b :: mask' => if b then x :: select l' mask' else select l' mask'
  | _, _ => []
  end.

(** [df[key]] where [key] is the series [df[...].apply(f)] of the values
    [mask].  A series that has values is a series of booleans, and pandas
    keeps the rows it marks.  A series without values (the frame has no
    row) is no boolean series: pandas takes it for a list of column
    labels, an empty one, and the result has no column. *)
Definition select_rows (df : dataframe) (mask : list bool) : dataframe :=
  match mask with
  | [] => DataFrame [] (index df) (map (fun _ => []) (rows df))
  | _ :: _ =>
      DataFrame (columns df) (select (index df) mask) (select (rows df) mask)
  end.

(** [repr] of a [str], as the f-string of the error message prints the
    column names.  Python quotes with ['] unless the string has a ['] and
    no double quote; it escapes the backslash, the quote in use, tab, line
    feed and carriage return, and writes the other unprintable code
    points (below 32, 127 to 160, 173) as [\xNN]. *)
Definition squote : ascii := ascii_of_nat 39.
Definition dquote : ascii := ascii_of_nat 34.
Definition backslash : ascii := ascii_of_nat 92.

Definition hex_digit (n : N) : ascii :=
  ascii_of_N (if (n <? 10)%N then 48 + n else 87 + n)%N.

Definition hex_escape (n : N) : string :=
  String backslash
    (String "x" (String (hex_digit (n / 16)) (String (hex_digit (n mod 16)) ""))).

Definition repr_char (quote c : ascii) : string :=
  let n := N_of_ascii c in
  if Ascii.eqb c quote || Ascii.eqb c backslash then
    String backslash (String c "")
  else if (n =? 9)%N then String backslash "t"
  else if (n =? 10)%N then String backslash "n"
  else if (n =? 13)%N then String backslash "r"
  else if ((n <? 32) || (n =? 127))%N then hex_escape n
  else if (n <? 127)%N then String c ""
  else if (((128 <=? n) && (n <=? 160)) || (n =? 173))%N then hex_escape n
  else String c "".

Definition repr_quote (s : string) : ascii :=
  let cs := list_ascii_of_string s in
  if existsb (Ascii.eqb squote) cs && negb (existsb (Ascii.eqb dquote) cs)
  then dquote else squote.

Definition repr_str (s : string) : string :=
  let q := repr_quote s in
  (String q
     (String.concat "" (map (repr_char q) (list_ascii_of_string s))
      ++ String q ""))%string.

(** [repr] of a list of strings. *)
Definition repr_list (l : list string) : string :=
  ("[" ++ String.concat ", " (map repr_str l) ++ "]")%string.

(** The classifier local to [main]. *)
Definition is_broken (s : value) : bool :=
  match s with
  | VInt z => z >=? 400
  | _ => true
  end.

(** The command line, after [argparse]. *)
Record arguments : Type := Arguments {
  arg_input : string;
  arg_output : string;
  arg_column : string;
  arg_workers : Z;
  arg_timeout : Z
}.

(** [os.path.dirname] (POSIX): the path up to and with its last slash,
    then without its trailing slashes unless it consists of slashes. *)
Definition slash : ascii := ascii_of_nat 47.

Fixpoint drop_until_slash (l : list ascii) : list ascii :=
  match l with
  | [] => []
  | c :: rest => if Ascii.eqb c slash then l else drop_until_slash rest
  end.

Fixpoint drop_slashes (l : list ascii) : list ascii :=
  match l with
  | [] => []
  | c :: rest => if Ascii.eqb c slash then drop_slashes rest else l
  end.

Definition dirname (p : string) : string :=
  let head := rev (drop_until_slash (rev (list_ascii_of_string p))) in
  string_of_list_ascii
    (if forallb (Ascii.eqb slash) head then head
     else rev (drop_slashes (rev head))).

(** The file system, as it answers the calls of one run: what
    [pd.read_csv(path)] returns or raises, what [os.path.isdir(path)]
    says, and whether [os.makedirs(path, exist_ok=True)] and
    [frame.to_csv(path, index=False)] succeed or raise.  Theorems
    quantify over all file systems. *)
Record system : Type := System {
  read_csv : string -> result dataframe;
  isdir : string -> bool;
  makedirs : string -> result unit;
  to_csv : string -> dataframe -> result unit
}.

(** How a run ends, and what it did before ending: the lines printed, the
    files written to the end, the traces of the tasks and the directories
    made. *)
Inductive ending : Type :=
  | Completed
  | SystemExit (message : string)
  | Uncaught (e : exception).

Record run_report : Type := RunReport {
  run_ending : ending;
  run_stdout : list string;
  run_written : list (string * dataframe);
  run_network : list trace;
  run_dirs : list string
}.

(** The key of [status_map] that an index label is equal to, if any: the
    keys are the positions [0 .. n - 1], so an [int] label that is not
    negative is a candidate, and a [str], [None] or [nan] label is equal
    to no key. *)
Definition dict_key (label : value) : option nat :=
  match label with
  | VInt z => if 0 <=? z then Some (Z.to_nat z) else None
  | _ => None
  end.

(** [status_map.get(i, "error: missing")] for an index label [i] *)
Definition status_get (status_map : gmap nat value) (label : value) : value :=
  match dict_key label with
  | Some k => default (VStr "error: missing") (status_map !! k)
  | None => VStr "error: missing"
  end.

(** The part of [main] after the statuses are known: the [IMAGE_STATUS]
    column, the broken rows, the output file and the three printed lines. *)
Definition with_status (df : dataframe) (status_map : gmap nat value)
  : dataframe :=
  set_column df "IMAGE_STATUS" (map (status_get status_map) (index df)).

Definition broken_rows (df : dataframe) : dataframe :=
  select_rows df (map is_broken (column_values df "IMAGE_STATUS")).

Definition console (df broken_df : dataframe) (output : string)
  : list string :=
  [ ("Checked " ++ str_of_nat (length (rows df)) ++ " rows.")%string;
    ("Broken rows: " ++ str_of_nat (length (rows broken_df)))%string;
    ("Wrote: " ++ output)%string ].

(** [not os.path.isdir(d) and d], for [d] the directory of the output *)
Definition wants_makedirs (os : system) (output : string) : bool :=
  negb (isdir os (dirname output)) && str_truthy (dirname output).

(** [main], given the file system, the network as each task sees it and
    the order in which the tasks finish. *)
Definition main (args : arguments) (os : system)
    (nets : nat -> network) (order : list nat) : run_report :=
  match read_csv os (arg_input args) with
  | Raised e => RunReport (Uncaught e) [] [] [] []
  | Ok df =>
      if negb (has_column df (arg_column args)) then
        RunReport
          (SystemExit ("Column '" ++ arg_column args
                       ++ "' not found. Columns: "
                       ++ repr_list (columns df))%string)
          [] [] [] []
      else
        let urls := column_values df (arg_column args) in
        match dispatch nets order urls (arg_workers args) (arg_timeout args)
        with
        | (network_seen, Raised e) =>
            RunReport (Uncaught e) [] [] network_seen []
        | (network_seen, Ok results) =>
            let status_map := status_map_of results in
            let df := with_status df status_map in
            let broken_df := broken_rows df in
            let dirs :=
              if wants_makedirs os (arg_output args)
              then [dirname (arg_output args)] else [] in
            match (if wants_makedirs os (arg_output args)
                   then makedirs os (dirname (arg_output args))
                   else Ok tt)
            with
            | Raised e => RunReport (Uncaught e) [] [] network_seen []
            | Ok _ =>
                match to_csv os (arg_output args) broken_df with
                | Raised e => RunReport (Uncaught e) [] [] network_seen dirs
                | Ok _ =>
                    RunReport Completed
                      (console df broken_df (arg_output args))
                      [(arg_output args, broken_df)]
                      network_seen dirs
                end
            end
        end
  end.

(** The statuses of the tasks of a run, by position of the URL. *)
Definition task_statuses (args : arguments) (df : dataframe)
    (nets : nat -> network) : gmap nat value :=
  list_to_map
    (expected_results nets (column_values df (arg_column args))
       (arg_timeout args)).

(** The label of every row: what the statuses hold under its index
    label. *)
Definition row_labels (args : arguments) (df : dataframe)
    (nets : nat -> network) : list value :=
  map (status_get (task_statuses args df nets)) (index df).

(** The status of the probe of every row's own URL. *)
Definition own_statuses (args : arguments) (df : dataframe)
    (nets : nat -> network) : list value :=
  imap (fun i url => task_status (nets i) url (arg_timeout args))
    (column_values df (arg_column args)).

(** The rows whose label is broken, in order, each changed by [put] and
    its label. *)
Definition labelled_rows (put : list value -> value -> list value)
    (rws : list (list value)) (labels : list value) : list (list value) :=
  map (fun rl => put rl.1 rl.2)
    (List.filter (fun rl => is_broken rl.2) (zip rws labels)).

End Report.
Export Report.

(** ** Scenarios

    Concrete networks and tables on which the theorems below are run. *)

Module Scenario.

(** The first call times out; afterwards HEAD is refused with 405 and GET
    answers 404. *)
Definition net_flaky_405_404 : network :=
  fun t r =>
    match t with
    | [] => Raised (Exc true "ConnectTimeout")
    | _ :: _ =>
        match req_method r with
        | HEAD => Ok (Response 405)
        | GET => Ok (Response 404)
        end
    end.

(** Every call fails to connect. *)
Definition net_down : network :=
  fun _ _ => Raised (Exc true "ConnectionError").

(** Every call raises an exception of urllib3 that [requests] lets through
    and that is no [RequestException]. *)
Definition net_fault : network :=
  fun _ _ => Raised (Exc false "LocationParseError").

(** One image is served, any other URL is answered 404. *)
Definition net_a_test : network :=
  fun _ r =>
    if String.eqb (req_url r) "http://a.test/ok.png"
    then Ok (Response 200) else Ok (Response 404).

(** Every call is answered 200. *)
Definition net_200 : network := fun _ _ => Ok (Response 200).

(** Three URLs; the task of the second meets [net_fault], the others
    [net_a_test]; the third task finishes first, the second last. *)
Definition urls_three : list value :=
  [VStr "http://a.test/ok.png"; VStr "http://a.test/odd.png";
   VStr "http://a.test/missing.png"].

Definition nets_one_fault : nat -> network :=
  fun i => if (i =? 1)%nat then net_fault else net_a_test.

(** The table of three rows: a served image, a missing one, an empty cell. *)
Definition df_three : dataframe :=
  DataFrame ["SKU"; "IMAGE_URLS"] (range_index 3)
    [[VInt 1; VStr "http://a.test/ok.png"];
     [VInt 2; VStr "http://a.test/missing.png"];
     [VInt 3; VNaN]].



(** A table whose URL cells are empty or white space. *)
Definition df_blank : dataframe :=
  DataFrame ["SKU"; "IMAGE_URLS"] (range_index 3)
    [[VInt 1; VNaN]; [VInt 2; VStr "  "]; [VInt 3; VNaN]].

(** A file system on which the input reads as [df], no directory exists
    yet, and making directories and writing succeed. *)
Definition os_reading (df : dataframe) : system :=
  System (fun _ => Ok df) (fun _ => false) (fun _ => Ok tt)
    (fun _ _ => Ok tt).

(** The same, but the output path names a directory. *)
Definition os_unwritable (df : dataframe) : system :=
  System (fun _ => Ok df) (fun _ => true) (fun _ => Ok tt)
    (fun _ _ => Raised (Exc false "IsADirectoryError")).

Definition args_default : arguments :=
  Arguments "in/images.csv" "out/broken.csv" "IMAGE_URLS" MAX_WORKERS
    DEFAULT_TIMEOUT.

Definition args_other_column : arguments :=
  Arguments "in/images.csv" "out/broken.csv" "PHOTO" MAX_WORKERS
    DEFAULT_TIMEOUT.

(** HEAD is answered 503 and GET times out, every time. *)
Definition net_head_503_get_fails : network :=
  fun _ r =>
    match req_method r with
    | HEAD => Ok (Response 503)
    | GET => Raised (Exc true "ReadTimeout")
    end.

Definition order_201 : list nat := [2; 0; 1]%nat.
Definition order_012 : list nat := [0; 1; 2]%nat.

End Scenario.

(** ** Traces of a probe

    The shape of what one probe does to the network, used to state what
    [check_one] does on every network. *)

Module Traces.

(** The trace of consecutive attempts, the first being attempt [k]:
    [gets] tells, attempt by attempt, whether the GET request followed the
    HEAD request; a sleep of [backoff] separates an attempt from the next. *)
Fixpoint attempts_trace (url : string) (timeout : Z) (k : nat)
    (gets : list bool) : trace :=
  match gets with
  | [] => []
  | g :: rest =>
      (ECall (head_request url timeout)
         :: (if g then [ECall (get_request url timeout)] else []))
      ++ match rest with
         | [] => []
         | _ :: _ =>
             ESleep (backoff k) :: attempts_trace url timeout (S k) rest
         end
  end.

Definition is_call (ev : event) : bool :=
  match ev with ECall _ => true | ESleep _ => false end.

(** The number of requests a trace shows, and the time it sleeps. *)
Definition requests_made (t : trace) : nat := length (List.filter is_call t).

Definition total_sleep (t : trace) : Q := fold_right Qplus 0%Q (sleeps t).

(** How an attempt or a probe that sent something ends: its last event is
    a request, and the answer to that request decides the result.  A
    response gives its status, and then a HEAD response is one that calls
    for no GET; a [RequestException] gives the error sentinel, and only
    when [exhausted] holds; any other exception is raised as it is. *)
Definition decided_by_last (net : network) (exhausted : Prop)
    (out : trace * result value) : Prop :=
  exists t0 req,
    out.1 = t0 ++ [ECall req]
    /\ match out.2 with
       | Ok v =>
           (exists resp, net t0 req = Ok resp
                         /\ v = StatusCode (status_code resp)
                         /\ (req_method req = HEAD ->
                             wants_get (status_code resp) = false))
           \/ (exists e, net t0 req = Raised e
                         /\ is_RequestException e = true
                         /\ v = ErrorSentinel (type_name e)
                         /\ exhausted)
       | Raised e => net t0 req = Raised e /\ is_RequestException e = false
       end.

(** In every attempt of [gets], the first starting at trace [t] as attempt
    [k], the GET request is sent exactly when the HEAD request of that
    attempt is answered with a status that calls for it. *)
Fixpoint heads_decide (net : network) (url : string) (timeout : Z)
    (t : trace) (k : nat) (gets : list bool) : Prop :=
  match gets with
  | [] => True
  | g :: rest =>
      (g = true <->
       exists resp, net t (head_request url timeout) = Ok resp
                    /\ wants_get (status_code resp) = true)
      /\ heads_decide net url timeout
           (t ++ (ECall (head_request url timeout)
                    :: (if g then [ECall (get_request url timeout)] else []))
              ++ [ESleep (backoff k)])
           (S k) rest
  end.

(** A string of white space only. *)
Definition all_space (s : string) : bool :=
  forallb isspace (list_ascii_of_string s).

End Traces.
Export Traces.

(** ** The report of a completed run, in closed form *)

Module Written.

(** Where [main] puts the label of a row: in place of the cell of an
    [IMAGE_STATUS] column that the input has, or after the last cell. *)
Definition status_put (df : dataframe) : list value -> value -> list value :=
  match column_pos "IMAGE_STATUS" (columns df) with
  | Some p => overwrite_label p
  | None => append_label
  end.

Definition report_columns (df : dataframe) : list string :=
  match column_pos "IMAGE_STATUS" (columns df) with
  | Some _ => columns df
  | None => columns df ++ ["IMAGE_STATUS"]
  end.

(** The frame that a run hands to [to_csv]: [main]'s own computation, from
    the statuses of the tasks. *)
Definition report_of (args : arguments) (df : dataframe)
    (nets : nat -> network) : dataframe :=
  broken_rows (with_status df (task_statuses args df nets)).

(** The file system lets the run write [out]: [os.makedirs], if the run
    calls it, and [to_csv] succeed. *)
Definition output_ok (os : system) (args : arguments) (out : dataframe)
  : Prop :=
  (wants_makedirs os (arg_output args) = true ->
   makedirs os (dirname (arg_output args)) = Ok tt)
  /\ to_csv os (arg_output args) out = Ok tt.

(** The requests of all the tasks of a run. *)
Definition requests_sent (traces : list trace) : nat :=
  list_sum (map requests_made traces).

(** A character that [repr] prints as it is, whatever the quote: a
    printable ASCII character other than the single quote and the
    backslash. *)
Definition plain_char (c : ascii) : bool :=
  let n := N_of_ascii c in
  ((32 <=? n) && (n <? 127) && negb (n =? 39) && negb (n =? 92))%N.

Definition plain_name (s : string) : bool :=
  forallb plain_char (list_ascii_of_string s).

End Written.
Export Written.

(** * Facts about the probe *)

Section ProbeFacts.

Variable net : network.
Variable url : string.
Variable timeout : Z.

Let head_ev : event := ECall (head_request url timeout).
Let get_ev : event := ECall (get_request url timeout).

Lemma wants_get_spec h :
  wants_get h = true <-> h = 405 \/ (400 <= h /\ h <> 404).
Proof.
  unfold wants_get.
  rewrite orb_true_iff, andb_true_iff, negb_true_iff.
  rewrite Z.eqb_eq, Z.geb_le, Z.eqb_neq. tauto.
Qed.

(** One attempt, case by case on what the network answers. *)
Lemma attempt_body_eq t :
  attempt_body net url timeout t =
  match net t (head_request url timeout) with
  | Raised e => (t ++ [head_ev], Raised e)
  | Ok r =>
      if wants_get (status_code r) then
        match net (t ++ [head_ev]) (get_request url timeout) with
        | Raised e => (t ++ [head_ev; get_ev], Raised e)
        | Ok r' => (t ++ [head_ev; get_ev], Ok (VInt (status_code r')))
        end
      else (t ++ [head_ev], Ok (VInt (status_code r)))
  end.
Proof.
  unfold attempt_body, requests_head, requests_get, call, mbind, prog_bind,
    mret, prog_ret, head_ev, get_ev.
  destruct (net t (head_request url timeout)) as [r|e]; [|reflexivity].
  destruct (wants_get (status_code r)); [|reflexivity].
  rewrite <- app_assoc. simpl.
  destruct (net _ (get_request url timeout)); reflexivity.
Qed.

(** One turn of the loop. *)
Lemma retry_loop_cons attempt rest t :
  retry_loop net url timeout (attempt :: rest) t =
  match attempt_body net url timeout t with
  | (t', Ok v) => (t', Ok v)
  | (t', Raised e) =>
      if is_RequestException e then
        if (attempt <? RETRIES)%nat then
          retry_loop net url timeout rest (t' ++ [ESleep (backoff attempt)])
        else (t', Ok (ErrorSentinel (type_name e)))
      else (t', Raised e)
  end.
Proof.
  simpl. unfold try_except.
  destruct (attempt_body net url timeout t) as [t' [v|e]]; [reflexivity|].
  destruct (is_RequestException e); [|reflexivity].
  destruct (attempt <? RETRIES)%nat; reflexivity.
Qed.

Lemma reaches_le k t : reaches net url timeout k t -> (k <= RETRIES)%nat.
Proof. destruct 1; lia. Qed.

(** The loop of [check_one], run from the start, is the rest of the loop
    run from any state it reaches. *)
Lemma retry_loop_reaches k t :
  reaches net url timeout k t ->
  run (retry_loop net url timeout attempts_range) =
  retry_loop net url timeout (seq k (RETRIES + 1 - k)) t.
Proof.
  induction 1 as [|k t t' e Hr IH Hk Hbody Hreq]; [reflexivity|].
  rewrite IH.
  replace (RETRIES + 1 - k)%nat with (S (RETRIES + 1 - S k)) by lia.
  rewrite <- cons_seq, retry_loop_cons, Hbody, Hreq.
  apply Nat.ltb_lt in Hk. rewrite Hk. reflexivity.
Qed.

End ProbeFacts.

Section StripFacts.

Lemma lstrip_chars_split l :
  exists ws, l = ws ++ lstrip_chars l /\ forallb isspace ws = true.
Proof.
  induction l as [|c l [ws [Hl Hws]]]; [exists []; split; reflexivity|].
  simpl. destruct (isspace c) eqn:Hc.
  - exists (c :: ws). simpl. rewrite Hc, Hws. split; [congruence|reflexivity].
  - exists []. split; reflexivity.
Qed.

Lemma lstrip_chars_head c l l' :
  lstrip_chars l = c :: l' -> isspace c = false.
Proof.
  induction l as [|d l IH]; simpl; [discriminate|].
  destruct (isspace d) eqn:Hd; [exact IH|].
  intros [= -> _]. exact Hd.
Qed.

(** Nothing is dropped from a list that does not start with white space. *)
Lemma lstrip_chars_fixed l :
  (forall c l', l = c :: l' -> isspace c = false) -> lstrip_chars l = l.
Proof.
  destruct l as [|c l]; [reflexivity|].
  intros H. simpl. rewrite (H c l eq_refl). reflexivity.
Qed.

Lemma rstrip_chars_split l :
  exists ws, l = rstrip_chars l ++ ws /\ forallb isspace ws = true.
Proof.
  destruct (lstrip_chars_split (rev l)) as [ws [Hl Hws]].
  exists (rev ws). split.
  - unfold rstrip_chars. rewrite <- rev_app_distr, <- Hl.
    symmetry. apply rev_involutive.
  - rewrite forallb_forall in *. intros c Hc. apply Hws, in_rev, Hc.
Qed.

Lemma rstrip_chars_idem l : rstrip_chars (rstrip_chars l) = rstrip_chars l.
Proof.
  unfold rstrip_chars. rewrite rev_involutive. f_equal.
  apply lstrip_chars_fixed. intros c l'. apply lstrip_chars_head.
Qed.

(** [rstrip] keeps the first character of what it leaves. *)
Lemma rstrip_chars_head l c l' :
  rstrip_chars l = c :: l' -> exists l'', l = c :: l''.
Proof.
  destruct (rstrip_chars_split l) as [ws [Hl _]].
  intros H. rewrite H in Hl. exists (l' ++ ws). exact Hl.
Qed.

Lemma strip_chars_idem l : strip_chars (strip_chars l) = strip_chars l.
Proof.
  unfold strip_chars.
  rewrite (lstrip_chars_fixed (rstrip_chars (lstrip_chars l))).
  - apply rstrip_chars_idem.
  - intros c l' H. apply rstrip_chars_head in H as [l'' H].
    exact (lstrip_chars_head _ _ _ H).
Qed.

(** A stripped string is its own stripping. *)
Lemma strip_idem s : strip (strip s) = strip s.
Proof.
  unfold strip.
  rewrite list_ascii_of_string_of_list_ascii, strip_chars_idem. reflexivity.
Qed.

(** A stripped string neither starts nor ends with white space. *)
Lemma strip_chars_first l c l' :
  strip_chars l = c :: l' -> isspace c = false.
Proof.
  unfold strip_chars. intros H. apply rstrip_chars_head in H as [l'' H].
  exact (lstrip_chars_head _ _ _ H).
Qed.

Lemma strip_chars_last l l' c :
  strip_chars l = l' ++ [c] -> isspace c = false.
Proof.
  unfold strip_chars, rstrip_chars. intros H.
  apply (f_equal (@rev ascii)) in H.
  rewrite rev_involutive, rev_app_distr in H. simpl in H.
  exact (lstrip_chars_head _ _ _ H).
Qed.

End StripFacts.

Section LoopFacts.

Variable net : network.
Variable url : string.
Variable timeout : Z.

Lemma calls_only_app u t t' :
  calls_only u t -> calls_only u t' -> calls_only u (t ++ t').
Proof.
  intros H H' r Hr. apply in_app_or in Hr as [Hr|Hr]; [apply H|apply H']; exact Hr.
Qed.

Lemma calls_only_head_get t :
  calls_only url t ->
  calls_only url (t ++ [ECall (head_request url timeout)]) /\
  calls_only url (t ++ [ECall (head_request url timeout);
                        ECall (get_request url timeout)]).
Proof.
  intros H. split; apply calls_only_app; try exact H;
    intros r Hr; simpl in Hr;
    repeat (destruct Hr as [Hr|Hr]; [injection Hr as <-; reflexivity|]);
    destruct Hr.
Qed.

Lemma calls_only_sleep t q :
  calls_only url t -> calls_only url (t ++ [ESleep q]).
Proof.
  intros H. apply calls_only_app; [exact H|].
  intros r [Hr|[]]. discriminate Hr.
Qed.

Lemma attempt_body_calls t :
  calls_only url t -> calls_only url (attempt_body net url timeout t).1.
Proof.
  intros H. destruct (calls_only_head_get t H) as [Hh Hg].
  rewrite attempt_body_eq.
  destruct (net t _) as [r|e]; [|exact Hh].
  destruct (wants_get _); [|exact Hh].
  destruct (net _ _); exact Hg.
Qed.

(** The loop sends every request to the URL it was given. *)
Lemma retry_loop_calls attempts : forall t,
  calls_only url t -> calls_only url (retry_loop net url timeout attempts t).1.
Proof.
  induction attempts as [|attempt rest IH]; intros t H; [exact H|].
  rewrite retry_loop_cons.
  pose proof (attempt_body_calls t H) as Hb.
  destruct (attempt_body net url timeout t) as [t' [v|e]]; [exact Hb|].
  destruct (is_RequestException e); [|exact Hb].
  destruct (attempt <? RETRIES)%nat; [|exact Hb].
  apply IH, calls_only_sleep, Hb.
Qed.

(** An attempt extends the trace, starting with its HEAD request. *)
Lemma attempt_body_extends t :
  exists t', (attempt_body net url timeout t).1
             = t ++ ECall (head_request url timeout) :: t'.
Proof.
  rewrite attempt_body_eq.
  destruct (net t _) as [r|e]; [|exists []; reflexivity].
  destruct (wants_get _); [|exists []; reflexivity].
  destruct (net _ _); eexists; reflexivity.
Qed.

Lemma retry_loop_extends attempts : forall t,
  exists t', (retry_loop net url timeout attempts t).1 = t ++ t'.
Proof.
  induction attempts as [|attempt rest IH]; intros t.
  - exists []. simpl. symmetry. apply app_nil_r.
  - rewrite retry_loop_cons.
    destruct (attempt_body_extends t) as [t1 Ht1].
    destruct (attempt_body net url timeout t) as [t' [v|e]]; simpl in Ht1;
      subst t'; [eexists; reflexivity|].
    destruct (is_RequestException e); [|eexists; reflexivity].
    destruct (attempt <? RETRIES)%nat; [|eexists; reflexivity].
    destruct (IH ((t ++ ECall (head_request url timeout) :: t1)
                    ++ [ESleep (backoff attempt)])) as [t2 Ht2].
    rewrite Ht2. rewrite <- !app_assoc. eexists; reflexivity.
Qed.

Lemma retry_loop_starts attempt rest :
  exists t', (run (retry_loop net url timeout (attempt :: rest))).1
             = ECall (head_request url timeout) :: t'.
Proof.
  unfold run. rewrite retry_loop_cons.
  destruct (attempt_body_extends []) as [t1 Ht1].
  destruct (attempt_body net url timeout []) as [t' [v|e]]; simpl in Ht1;
    subst t'; [eexists; reflexivity|].
  destruct (is_RequestException e); [|eexists; reflexivity].
  destruct (attempt <? RETRIES)%nat; [|eexists; reflexivity].
  destruct (retry_loop_extends rest
              ((ECall (head_request url timeout) :: t1)
                 ++ [ESleep (backoff attempt)])) as [t2 Ht2].
  rewrite Ht2. eexists; reflexivity.
Qed.

(** The loop never ends with [None] when its last attempt is attempt
    [RETRIES]. *)
Lemma attempt_body_outcome t :
  match (attempt_body net url timeout t).2 with
  | Ok v => exists s, v = StatusCode s
  | Raised e => exists t r, net t r = Raised e
  end.
Proof.
  rewrite attempt_body_eq.
  destruct (net t _) as [r|e] eqn:Hh; [|simpl; eauto].
  destruct (wants_get _); [|simpl; eauto].
  destruct (net _ (get_request url timeout)) eqn:Hg; simpl; eauto.
Qed.

Lemma retry_loop_outcome n : forall k t,
  (k + n = RETRIES)%nat ->
  probe_outcome net (retry_loop net url timeout (seq k (S n)) t).2.
Proof.
  induction n as [|n IH]; intros k t Hk;
    rewrite <- cons_seq, retry_loop_cons;
    pose proof (attempt_body_outcome t) as Hb;
    destruct (attempt_body net url timeout t) as [t' [v|e]]; simpl in Hb;
    try (left; exact Hb);
    destruct (is_RequestException e) eqn:He; try (split; [exact He|exact Hb]).
  - replace (k <? RETRIES)%nat with false by (symmetry; apply Nat.ltb_ge; lia).
    right; right. eexists; reflexivity.
  - replace (k <? RETRIES)%nat with true by (symmetry; apply Nat.ltb_lt; lia).
    apply IH. lia.
Qed.

End LoopFacts.

(** * The probe: theorems *)

Lemma check_one_nonblank s timeout net :
  is_blank (VStr s) = false ->
  check_one (VStr s) timeout net
  = retry_loop net (strip s) timeout attempts_range.
Proof.
  unfold is_blank, check_one. intros ->. reflexivity.
Qed.

(** Every run of [check_one] ends with a well-formed outcome or with an
    exception of the network that is not a [RequestException]. *)
Lemma check_one_outcome url timeout net :
  probe_outcome net (run (check_one url timeout net)).2.
Proof.
  unfold check_one.
  destruct url as [z|s| |]; try (right; left; reflexivity).
  destruct (negb (str_truthy (strip s))); [right; left; reflexivity|].
  apply (retry_loop_outcome net (strip s) timeout RETRIES 0 []). lia.
Qed.

(** The status recorded for a task is a well-formed outcome in all cases. *)
Lemma task_status_well_formed net url timeout :
  well_formed_outcome (task_status net url timeout).
Proof.
  unfold task_status.
  pose proof (check_one_outcome url timeout net) as H.
  destruct (run (check_one url timeout net)).2 as [v|e]; [exact H|].
  right; right. eexists; reflexivity.
Qed.

(** C1.  Take any attempt of a probe of a non-blank URL: the loop reaches
    attempt [k] with trace [t].  If the HEAD request of that attempt is
    answered with status [h] and, in case [h] is 405 or (at least 400 and
    not 404), the GET request that follows is answered with status [g],
    then the whole probe is over with that attempt: its trace is [t], the
    HEAD request and, exactly in that case, the GET request, with nothing
    after them; and it returns the status of GET in that case and of HEAD
    otherwise, whatever that status is. *)
Theorem check_one_returns_status net s timeout k t h g :
  is_blank (VStr s) = false ->
  reaches net (strip s) timeout k t ->
  net t (head_request (strip s) timeout) = Ok (Response h) ->
  (wants_get h = true ->
   net (t ++ [ECall (head_request (strip s) timeout)])
       (get_request (strip s) timeout) = Ok (Response g)) ->
  run (check_one (VStr s) timeout net)
  = (t ++ ECall (head_request (strip s) timeout)
         :: (if wants_get h then [ECall (get_request (strip s) timeout)]
             else []),
     Ok (StatusCode (if wants_get h then g else h)))
  /\ (wants_get h = true <-> h = 405 \/ (400 <= h /\ h <> 404)).
Proof.
  intros Hs Hk Hh Hg. split; [|apply wants_get_spec].
  rewrite (check_one_nonblank _ _ _ Hs), (retry_loop_reaches _ _ _ _ _ Hk).
  pose proof (reaches_le _ _ _ _ _ Hk) as Hle.
  replace (RETRIES + 1 - k)%nat with (S (RETRIES - k)) by lia.
  rewrite <- cons_seq, retry_loop_cons, attempt_body_eq, Hh. simpl status_code.
  destruct (wants_get h); [|reflexivity].
  rewrite (Hg eq_refl). reflexivity.
Qed.

(** The second attempt of a probe whose first attempt timed out: HEAD 405,
    then GET 404, and the probe returns 404 at once. *)
Lemma check_one_returns_status_witness :
  run (check_one (VStr " http://a.test/x.png ") 10 Scenario.net_flaky_405_404)
  = ([ECall (head_request "http://a.test/x.png" 10); ESleep (backoff 0);
      ECall (head_request "http://a.test/x.png" 10);
      ECall (get_request "http://a.test/x.png" 10)],
     Ok (StatusCode 404))
  /\ (wants_get 405 = true <-> 405 = 405 \/ (400 <= 405 /\ 405 <> 404)).
Proof.
  apply (check_one_returns_status Scenario.net_flaky_405_404
           " http://a.test/x.png " 10 1
           [ECall (head_request "http://a.test/x.png" 10); ESleep (backoff 0)]
           405 404).
  - reflexivity.
  - apply (reaches_retry _ _ _ 0 [] [ECall (head_request "http://a.test/x.png" 10)]
             (Exc true "ConnectTimeout")).
    + apply reaches_first.
    + unfold RETRIES. lia.
    + reflexivity.
    + reflexivity.
  - reflexivity.
  - reflexivity.
Defined.

(** A HEAD answered 404 is trusted: no GET, and 404 is the outcome; a HEAD
    answered 405 is followed by a GET. *)
Example head_404_is_final :
  run (check_one (VStr "http://a.test/missing.png") 10 Scenario.net_a_test)
  = ([ECall (head_request "http://a.test/missing.png" 10)], Ok (StatusCode 404)).
Proof. reflexivity. Qed.

Example head_405_then_get_404 :
  run (check_one (VStr "http://a.test/x.png") 10
         (fun _ r => match req_method r with
                     | HEAD => Ok (Response 405)
                     | GET => Ok (Response 404)
                     end))
  = ([ECall (head_request "http://a.test/x.png" 10);
      ECall (get_request "http://a.test/x.png" 10)], Ok (StatusCode 404)).
Proof. reflexivity. Qed.

(** C2.  [is_broken] holds of a status code exactly when the code is at
    least 400: of none from 200 to 399, of all from 400 to 599, of 400 and
    404 and not of 399; and it holds of the empty sentinel and of every
    error sentinel. *)
Theorem is_broken_spec :
  (forall s, is_broken (StatusCode s) = true <-> 400 <= s)
  /\ (forall s, 200 <= s <= 399 -> is_broken (StatusCode s) = false)
  /\ (forall s, 400 <= s <= 599 -> is_broken (StatusCode s) = true)
  /\ is_broken (StatusCode 399) = false
  /\ is_broken (StatusCode 400) = true
  /\ is_broken (StatusCode 404) = true
  /\ is_broken EmptySentinel = true
  /\ (forall kind, is_broken (ErrorSentinel kind) = true).
Proof.
  assert (Hiff : forall s, is_broken (StatusCode s) = true <-> 400 <= s).
  { intros s. simpl. rewrite Z.geb_le. reflexivity. }
  repeat split; try reflexivity; try apply Hiff.
  - intros s Hs. destruct (is_broken (StatusCode s)) eqn:Hb; [|reflexivity].
    apply Hiff in Hb. lia.
  - intros s Hs. apply Hiff. lia.
Qed.



Example check_one_network_down :
  run (check_one (VStr "http://a.test/x.png") 10 Scenario.net_down)
  = ([ECall (head_request "http://a.test/x.png" 10); ESleep (backoff 0);
      ECall (head_request "http://a.test/x.png" 10); ESleep (backoff 1);
      ECall (head_request "http://a.test/x.png" 10)],
     Ok (ErrorSentinel "ConnectionError")).
Proof. reflexivity. Qed.

(** C4.  [check_one] returns the empty sentinel with an empty trace, so
    without any network call, for an input that is not a string, is the
    empty string, or strips to the empty string.  For any other string the
    probe starts with a HEAD request to the stripped URL, and every request
    it makes goes to the stripped URL, which stripping leaves unchanged and
    which neither starts nor ends with white space. *)
Theorem check_one_blank_or_trimmed url timeout net :
  ((isinstance_str url = false \/ url = VStr ""
    \/ exists s, url = VStr s /\ strip s = "") ->
   run (check_one url timeout net) = ([], Ok EmptySentinel))
  /\ (forall s, url = VStr s -> strip s <> "" ->
      (exists t', (run (check_one url timeout net)).1
                  = ECall (head_request (strip s) timeout) :: t')
      /\ forall r, In (ECall r) (run (check_one url timeout net)).1 ->
           req_url r = strip s
           /\ strip (req_url r) = req_url r
           /\ (forall c l, list_ascii_of_string (req_url r) = c :: l ->
                isspace c = false)
           /\ (forall l c, list_ascii_of_string (req_url r) = l ++ [c] ->
                isspace c = false)).
Proof.
  split.
  - intros [H|[H|[s [H Hs]]]].
    + destruct url; try reflexivity. discriminate H.
    + subst url. reflexivity.
    + subst url. unfold check_one. rewrite Hs. reflexivity.
  - intros s -> Hs.
    assert (Hb : is_blank (VStr s) = false).
    { unfold is_blank. destruct (strip s); [congruence|reflexivity]. }
    rewrite (check_one_nonblank _ _ _ Hb). split.
    + apply retry_loop_starts.
    + intros r Hr.
      assert (Hu : req_url r = strip s).
      { apply (retry_loop_calls net (strip s) timeout attempts_range []);
          [intros ? []|exact Hr]. }
      split; [exact Hu|]. rewrite Hu. split; [apply strip_idem|].
      unfold strip. rewrite list_ascii_of_string_of_list_ascii.
      split; [apply strip_chars_first|apply strip_chars_last].
Qed.

Example check_one_blank_inputs :
  run (check_one VNaN 10 Scenario.net_200) = ([], Ok EmptySentinel)
  /\ run (check_one (VInt 7) 10 Scenario.net_200) = ([], Ok EmptySentinel)
  /\ run (check_one (VStr "") 10 Scenario.net_200) = ([], Ok EmptySentinel)
  /\ run (check_one (VStr "   ") 10 Scenario.net_200) = ([], Ok EmptySentinel)
  /\ run (check_one (VStr " http://a.test/ok.png  ") 10 Scenario.net_200)
     = ([ECall (head_request "http://a.test/ok.png" 10)], Ok (StatusCode 200)).
Proof. repeat split. Qed.

(** C10, as the claim states it, fails where a network call raises an
    exception that is not a [RequestException]: the handler of the loop
    lets it through and [check_one] raises instead of returning. *)
Lemma check_one_may_raise :
  (run (check_one (VStr "http://a.test/x.png") 10 Scenario.net_fault)).2
  = Raised (Exc false "LocationParseError")
  /\ ~ exists v,
        (run (check_one (VStr "http://a.test/x.png") 10 Scenario.net_fault)).2
        = Ok v /\ well_formed_outcome v.
Proof.
  split; [reflexivity|]. intros [v [H _]]. discriminate H.
Qed.

(** C10, amended.  [check_one] is total, and on every input and every
    network its loop of [RETRIES + 1 = 3] iterations ends by an explicit
    [return] of a well-formed outcome or by letting through an exception
    that a network call raised and that is not a [RequestException]; it
    never returns [None].  On a network whose calls only return or raise a
    [RequestException] it therefore always returns a well-formed outcome. *)
Theorem check_one_total url timeout net :
  probe_outcome net (run (check_one url timeout net)).2
  /\ (run (check_one url timeout net)).2 <> Ok VNone
  /\ (transport_only net ->
      exists v, (run (check_one url timeout net)).2 = Ok v
                /\ well_formed_outcome v).
Proof.
  pose proof (check_one_outcome url timeout net) as H.
  split; [exact H|].
  destruct (run (check_one url timeout net)).2 as [v|e]; simpl in H.
  - split.
    + intros [= ->]. destruct H as [[s Hs]|[Hs|[k Hs]]]; discriminate Hs.
    + intros _. exists v. split; [reflexivity|exact H].
  - split; [discriminate|].
    intros Hnet. destruct H as [He [t [r Hr]]].
    apply Hnet in Hr. congruence.
Qed.

(** * Facts about the pool *)

Section PoolFacts.

Variable nets : nat -> network.
Variable timeout : Z.

Lemma submit_id i net url : future_id (submit i net url timeout) = i.
Proof. unfold submit. destruct (run _). reflexivity. Qed.

Lemma submit_status i net url :
  status_of (submit i net url timeout) = task_status net url timeout.
Proof. unfold submit, status_of, task_status. destruct (run _). reflexivity. Qed.

Lemma submit_all_lookup urls i :
  submit_all nets urls timeout !! i
  = (fun url => (submit i (nets i) url timeout, i)) <$> urls !! i.
Proof. unfold submit_all. apply list_lookup_imap. Qed.

Lemma submit_all_length urls :
  length (submit_all nets urls timeout) = length urls.
Proof. unfold submit_all. apply length_imap. Qed.

Lemma submit_all_filed urls : filed_by_id (submit_all nets urls timeout).
Proof.
  apply Forall_forall. intros [f i] Hin.
  apply list_elem_of_lookup in Hin as [k Hk].
  rewrite submit_all_lookup in Hk.
  destruct (urls !! k); [|discriminate]. injection Hk as <- <-.
  apply submit_id.
Qed.

(** Looking a future up in a dict that files futures by identity. *)
Lemma dict_get_filed d f :
  filed_by_id d -> (f, future_id f) ∈ d -> dict_get d f = Ok (future_id f).
Proof.
  induction d as [|[k v] d IH]; intros Hd Hin; [inversion Hin|].
  apply Forall_cons in Hd as [Hk Hd]. simpl in *.
  destruct (Nat.eqb_spec (future_id k) (future_id f)) as [Heq|Hne].
  - congruence.
  - apply IH; [exact Hd|].
    apply elem_of_cons in Hin as [Hin|Hin]; [|exact Hin].
    injection Hin as -> _. contradiction.
Qed.

(** The loop never fails on futures of its own dict, and appends one pair
    per future. *)
Lemma collect_filed d completed : forall results,
  filed_by_id d ->
  (forall f, f ∈ completed -> (f, future_id f) ∈ d) ->
  collect d completed results
  = Ok (results ++ ((fun f => (future_id f, status_of f)) <$> completed)).
Proof.
  induction completed as [|f rest IH]; intros results Hd Hin; simpl.
  - rewrite app_nil_r. reflexivity.
  - rewrite (dict_get_filed d f Hd) by (apply Hin; left).
    rewrite IH; [|exact Hd|intros g Hg; apply Hin; right; exact Hg].
    rewrite <- app_assoc. reflexivity.
Qed.

Lemma omap_lookup_fmap {A} (fs : list A) (g : nat -> nat) (l : list nat) :
  omap (fun k => fs !! k) (g <$> l) = omap (fun k => fs !! g k) l.
Proof.
  induction l as [|k l IH]; [reflexivity|]. csimpl. rewrite IH. reflexivity.
Qed.

(** Taken in submission order, the futures come out as they are. *)
Lemma as_completed_in_order fs : as_completed fs (seq 0 (length fs)) = fs.
Proof.
  unfold as_completed. induction fs as [|f fs IH]; [reflexivity|].
  simpl length. rewrite <- cons_seq, <- fmap_S_seq. csimpl.
  rewrite omap_lookup_fmap. simpl. rewrite IH. reflexivity.
Qed.

(** Whatever the finishing order, [as_completed] yields every future once. *)
Lemma as_completed_perm fs order :
  order ≡ₚ seq 0 (length fs) -> as_completed fs order ≡ₚ fs.
Proof.
  intros H. unfold as_completed. rewrite H. fold (as_completed fs (seq 0 (length fs))).
  rewrite as_completed_in_order. reflexivity.
Qed.

Lemma expected_results_keys urls :
  (expected_results nets urls timeout).*1 = seq 0 (length urls).
Proof.
  unfold expected_results. rewrite fmap_imap.
  rewrite (imap_ext _ (fun i _ => id i)) by reflexivity.
  rewrite imap_seq_0. apply list_fmap_id.
Qed.

Lemma expected_results_futures urls :
  (fun f => (future_id f, status_of f)) <$> (submit_all nets urls timeout).*1
  = expected_results nets urls timeout.
Proof.
  unfold submit_all, expected_results. rewrite !fmap_imap.
  apply imap_ext. intros i url _. simpl.
  rewrite submit_id, submit_status. reflexivity.
Qed.

(** The dict comprehension over [results], as a [list_to_map]. *)
Lemma status_map_of_reverse results :
  status_map_of results = list_to_map (reverse results).
Proof.
  unfold status_map_of.
  induction results as [|[i s] results IH] using rev_ind; [reflexivity|].
  rewrite foldl_snoc, reverse_snoc, list_to_map_cons, IH. reflexivity.
Qed.

(** A finished dispatch: the loop ends normally with a permutation of the
    expected pairs, and the status map does not depend on which one. *)
Lemma dispatch_results order urls workers :
  0 < workers ->
  order ≡ₚ seq 0 (length urls) ->
  exists results,
    dispatch nets order urls workers timeout
    = (map future_trace ((submit_all nets urls timeout).*1), Ok results)
    /\ results ≡ₚ expected_results nets urls timeout
    /\ status_map_of results
       = list_to_map (expected_results nets urls timeout).
Proof.
  intros Hw Horder.
  set (d := submit_all nets urls timeout).
  assert (Hperm : as_completed (d.*1) order ≡ₚ d.*1).
  { apply as_completed_perm.
    rewrite length_fmap. unfold d. rewrite submit_all_length. exact Horder. }
  exists ((fun f => (future_id f, status_of f)) <$> as_completed (d.*1) order).
  assert (Hres : (fun f => (future_id f, status_of f)) <$> as_completed (d.*1) order
                 ≡ₚ expected_results nets urls timeout).
  { rewrite Hperm. unfold d. rewrite expected_results_futures. reflexivity. }
  split; [|split; [exact Hres|]].
  - unfold dispatch. replace (workers <=? 0) with false by (symmetry; apply Z.leb_gt; exact Hw).
    fold d. f_equal.
    rewrite (collect_filed d _ []); [reflexivity|apply submit_all_filed|].
    intros f Hf. rewrite Hperm in Hf.
    apply list_elem_of_fmap in Hf as [[f' i] [-> Hin]]. simpl.
    pose proof (submit_all_filed urls) as Hd.
    unfold filed_by_id in Hd.
    rewrite Forall_forall in Hd. specialize (Hd _ Hin). simpl in Hd.
    rewrite Hd. exact Hin.
  - rewrite status_map_of_reverse. symmetry.
    apply list_to_map_proper.
    + rewrite expected_results_keys. apply NoDup_seq.
    + rewrite reverse_Permutation. symmetry. exact Hres.
Qed.

(** The status map of a finished dispatch, key by key. *)
Lemma expected_results_lookup urls i :
  (list_to_map (expected_results nets urls timeout) : gmap nat value) !! i
  = (fun url => task_status (nets i) url timeout) <$> urls !! i.
Proof.
  destruct (urls !! i) as [url|] eqn:Hi; simpl.
  - apply elem_of_list_to_map_1.
    + rewrite expected_results_keys. apply NoDup_seq.
    + apply list_elem_of_lookup. exists i.
      unfold expected_results. rewrite list_lookup_imap, Hi. reflexivity.
  - apply not_elem_of_list_to_map_1.
    rewrite expected_results_keys, elem_of_seq.
    apply lookup_ge_None in Hi. lia.
Qed.

End PoolFacts.

(** * The pool: theorems *)

(** An index label that is a position reads the entry of that position. *)
Lemma status_get_position (m : gmap nat value) i :
  status_get m (VInt (Z.of_nat i))
  = default (VStr "error: missing") (m !! i).
Proof.
  unfold status_get, dict_key.
  replace (0 <=? Z.of_nat i) with true by (symmetry; apply Z.leb_le; lia).
  rewrite Nat2Z.id. reflexivity.
Qed.

(** C5.  A dispatch with a positive worker count completes, whatever the
    order in which the tasks finish, with one result pair per submitted
    index and no index twice; the status map built from the pairs has
    exactly the keys [0 .. n - 1], hence as many entries as there are
    tasks; under every index it holds one outcome, the well-formed outcome
    of the task of that index, and that is what the consumer reads for
    the index.  For a label that is equal to no key of a status map, the
    consumer reads the error sentinel of kind ["missing"]. *)
Theorem dispatch_covers_every_index nets order urls workers timeout :
  0 < workers ->
  order ≡ₚ seq 0 (length urls) ->
  exists results,
    (dispatch nets order urls workers timeout).2 = Ok results
    /\ length results = length urls
    /\ NoDup (results.*1)
    /\ dom (status_map_of results) = (set_seq 0 (length urls) : gset nat)
    /\ size (status_map_of results) = length urls
    /\ (forall i url, urls !! i = Some url ->
        status_map_of results !! i
        = Some (task_status (nets i) url timeout)
        /\ well_formed_outcome (task_status (nets i) url timeout)
        /\ status_get (status_map_of results) (VInt (Z.of_nat i))
           = task_status (nets i) url timeout)
    /\ (forall (m : gmap nat value) label,
        (forall k, dict_key label = Some k -> m !! k = None) ->
        status_get m label = ErrorSentinel "missing").
Proof.
  intros Hw Horder.
  destruct (dispatch_results nets timeout order urls workers Hw Horder)
    as [results [Hd [Hperm Hmap]]].
  exists results.
  assert (Hkeys : results.*1 ≡ₚ seq 0 (length urls)).
  { rewrite Hperm. rewrite expected_results_keys. reflexivity. }
  assert (Hnodup : NoDup ((expected_results nets urls timeout).*1)).
  { rewrite expected_results_keys. apply NoDup_seq. }
  split; [rewrite Hd; reflexivity|].
  split; [rewrite Hperm; apply length_imap|].
  split; [rewrite Hkeys; apply NoDup_seq|].
  rewrite Hmap.
  split; [rewrite dom_list_to_map_L, expected_results_keys; apply list_to_set_seq|].
  split; [rewrite map_size_list_to_map by exact Hnodup; apply length_imap|].
  split.
  - intros i url Hi.
    assert (Hl : (list_to_map (expected_results nets urls timeout)
                    : gmap nat value) !! i
                 = Some (task_status (nets i) url timeout)).
    { rewrite expected_results_lookup, Hi. reflexivity. }
    split; [exact Hl|]. split; [apply task_status_well_formed|].
    rewrite status_get_position, Hl. reflexivity.
  - intros m label Hm. unfold status_get.
    destruct (dict_key label) as [k|]; [|reflexivity].
    rewrite (Hm k eq_refl). reflexivity.
Qed.

Lemma order_201_perm : Scenario.order_201 ≡ₚ seq 0 3.
Proof.
  unfold Scenario.order_201. simpl.
  apply (Permutation_cons_app [0%nat; 1%nat] [] 2%nat). reflexivity.
Qed.

Lemma dispatch_covers_every_index_witness :
  exists results,
    (dispatch Scenario.nets_one_fault Scenario.order_201 Scenario.urls_three
       24 10).2 = Ok results
    /\ length results = length Scenario.urls_three
    /\ NoDup (results.*1)
    /\ dom (status_map_of results)
       = (set_seq 0 (length Scenario.urls_three) : gset nat)
    /\ size (status_map_of results) = length Scenario.urls_three
    /\ (forall i url, Scenario.urls_three !! i = Some url ->
        status_map_of results !! i
        = Some (task_status (Scenario.nets_one_fault i) url 10)
        /\ well_formed_outcome (task_status (Scenario.nets_one_fault i) url 10)
        /\ status_get (status_map_of results) (VInt (Z.of_nat i))
           = task_status (Scenario.nets_one_fault i) url 10)
    /\ (forall (m : gmap nat value) label,
        (forall k, dict_key label = Some k -> m !! k = None) ->
        status_get m label = ErrorSentinel "missing").
Proof.
  apply (dispatch_covers_every_index Scenario.nets_one_fault
           Scenario.order_201 Scenario.urls_three 24 10).
  - reflexivity.
  - exact order_201_perm.
Defined.

(** C6.  In a dispatch with a positive worker count, whatever the order in
    which the tasks finish, every task gets its own entry in the status
    map: the error sentinel with the type name of the exception when its
    [check_one] raised, and what [check_one] returned otherwise.  A task
    that raises changes no other entry and does not end the dispatch. *)
Theorem dispatch_isolates_faults nets order urls workers timeout :
  0 < workers ->
  order ≡ₚ seq 0 (length urls) ->
  exists results,
    (dispatch nets order urls workers timeout).2 = Ok results
    /\ forall i url, urls !! i = Some url ->
         (forall e, (run (check_one url timeout (nets i))).2 = Raised e ->
            status_map_of results !! i = Some (ErrorSentinel (type_name e)))
         /\ (forall v, (run (check_one url timeout (nets i))).2 = Ok v ->
            status_map_of results !! i = Some v).
Proof.
  intros Hw Horder.
  destruct (dispatch_results nets timeout order urls workers Hw Horder)
    as [results [Hd [_ Hmap]]].
  exists results. split; [rewrite Hd; reflexivity|].
  intros i url Hi. rewrite Hmap, expected_results_lookup, Hi.
  unfold task_status. simpl.
  split; intros x Hx; rewrite Hx; reflexivity.
Qed.

Lemma dispatch_isolates_faults_witness :
  exists results,
    (dispatch Scenario.nets_one_fault Scenario.order_201 Scenario.urls_three
       24 10).2 = Ok results
    /\ forall i url, Scenario.urls_three !! i = Some url ->
         (forall e,
            (run (check_one url 10 (Scenario.nets_one_fault i))).2 = Raised e ->
            status_map_of results !! i = Some (ErrorSentinel (type_name e)))
         /\ (forall v,
            (run (check_one url 10 (Scenario.nets_one_fault i))).2 = Ok v ->
            status_map_of results !! i = Some v).
Proof.
  apply (dispatch_isolates_faults Scenario.nets_one_fault
           Scenario.order_201 Scenario.urls_three 24 10).
  - reflexivity.
  - exact order_201_perm.
Defined.

(** The second task raises; it is recorded as an error and its siblings
    are recorded with their statuses. *)
Example dispatch_one_fault :
  (dispatch Scenario.nets_one_fault Scenario.order_201 Scenario.urls_three
     24 10).2
  = Ok [(2%nat, StatusCode 404); (0%nat, StatusCode 200);
        (1%nat, ErrorSentinel "LocationParseError")].
Proof. reflexivity. Qed.

(** C9.  For fixed networks of the tasks, two dispatches of the same URLs
    end the same way whatever the two orders in which the tasks finish:
    with the same status map, which is the map from every index to the
    status of its task, when the worker count is positive. *)
Theorem dispatch_order_independent nets order1 order2 urls workers timeout :
  order1 ≡ₚ seq 0 (length urls) ->
  order2 ≡ₚ seq 0 (length urls) ->
  result_set nets order1 urls workers timeout
  = result_set nets order2 urls workers timeout
  /\ (0 < workers ->
      exists m : gmap nat value,
        result_set nets order1 urls workers timeout = Ok m
        /\ result_set nets order2 urls workers timeout = Ok m
        /\ forall i,
             m !! i = (fun url => task_status (nets i) url timeout) <$> urls !! i).
Proof.
  intros H1 H2.
  destruct (Z.leb_spec workers 0) as [Hw|Hw].
  - split; [|lia]. unfold result_set, dispatch.
    replace (workers <=? 0) with true by (symmetry; apply Z.leb_le; exact Hw).
    reflexivity.
  - destruct (dispatch_results nets timeout order1 urls workers Hw H1)
      as [r1 [Hd1 [_ Hm1]]].
    destruct (dispatch_results nets timeout order2 urls workers Hw H2)
      as [r2 [Hd2 [_ Hm2]]].
    assert (E1 : result_set nets order1 urls workers timeout
                 = Ok (list_to_map (expected_results nets urls timeout))).
    { unfold result_set. rewrite Hd1. simpl. rewrite Hm1. reflexivity. }
    assert (E2 : result_set nets order2 urls workers timeout
                 = Ok (list_to_map (expected_results nets urls timeout))).
    { unfold result_set. rewrite Hd2. simpl. rewrite Hm2. reflexivity. }
    split; [congruence|]. intros _.
    exists (list_to_map (expected_results nets urls timeout)).
    split; [exact E1|]. split; [exact E2|].
    apply expected_results_lookup.
Qed.

Lemma dispatch_order_independent_witness :
  result_set (fun _ => Scenario.net_200) Scenario.order_201
    Scenario.urls_three 24 10
  = result_set (fun _ => Scenario.net_200) Scenario.order_012
      Scenario.urls_three 24 10
  /\ (0 < 24 ->
      exists m : gmap nat value,
        result_set (fun _ => Scenario.net_200) Scenario.order_201
          Scenario.urls_three 24 10 = Ok m
        /\ result_set (fun _ => Scenario.net_200) Scenario.order_012
             Scenario.urls_three 24 10 = Ok m
        /\ forall i,
             m !! i
             = (fun url => task_status Scenario.net_200 url 10)
                 <$> Scenario.urls_three !! i).
Proof.
  apply (dispatch_order_independent (fun _ => Scenario.net_200)
           Scenario.order_201 Scenario.order_012 Scenario.urls_three 24 10).
  - exact order_201_perm.
  - reflexivity.
Defined.

(** * Facts about the report *)

Section ReportFacts.

Lemma column_pos_elem_of name cols :
  column_pos name cols = None <-> name ∉ cols.
Proof.
  induction cols as [|c cols IH]; simpl.
  - split; [intros _; apply not_elem_of_nil|reflexivity].
  - rewrite not_elem_of_cons. destruct (String.eqb_spec c name) as [->|Hne].
    + split; [discriminate|intros [H _]; congruence].
    + destruct (column_pos name cols); simpl.
      * split; [discriminate|]. intros [_ H]. apply IH in H. discriminate.
      * split; [|reflexivity]. intros _. split; [congruence|apply IH; reflexivity].
Qed.

Lemma column_pos_lt name cols p :
  column_pos name cols = Some p -> (p < length cols)%nat.
Proof.
  revert p. induction cols as [|c cols IH]; intros p; simpl; [discriminate|].
  destruct (String.eqb c name); [intros [= <-]; lia|].
  destruct (column_pos name cols) as [q|]; [|discriminate].
  intros [= <-]. specialize (IH q eq_refl). lia.
Qed.

(** A new column lands after the last one. *)
Lemma column_pos_new name cols :
  column_pos name cols = None ->
  column_pos name (cols ++ [name]) = Some (length cols).
Proof.
  induction cols as [|c cols IH]; simpl.
  - rewrite String.eqb_refl. reflexivity.
  - destruct (String.eqb c name); [discriminate|].
    destruct (column_pos name cols); [discriminate|].
    intros _. rewrite IH by reflexivity. reflexivity.
Qed.

Lemma cell_append row label n :
  length row = n -> cell n (append_label row label) = label.
Proof.
  intros <-. unfold cell, append_label.
  rewrite lookup_app_r, Nat.sub_diag by lia. reflexivity.
Qed.

Lemma cell_overwrite row label p :
  (p < length row)%nat -> cell p (overwrite_label p row label) = label.
Proof.
  intros H. unfold cell, overwrite_label.
  rewrite list_lookup_insert_eq by exact H. reflexivity.
Qed.

(** Selecting on the labels read back from the rows that carry them. *)
Lemma select_labelled put p : forall rws labels,
  Forall (fun row => forall label, cell p (put row label) = label) rws ->
  select (zip_with put rws labels)
    (map is_broken (map (cell p) (zip_with put rws labels)))
  = labelled_rows put rws labels.
Proof.
  unfold labelled_rows.
  induction rws as [|row rws IH]; intros [|label labels] Hput;
    try reflexivity.
  apply Forall_cons in Hput as [Hrow Hput]. simpl.
  rewrite Hrow, (IH labels Hput).
  destruct (is_broken label); reflexivity.
Qed.

Lemma column_values_length df name :
  has_column df name = true ->
  length (column_values df name) = length (rows df).
Proof.
  unfold has_column, column_values.
  destruct (column_pos name (columns df)); [|discriminate].
  intros _. apply length_map.
Qed.

(** Under the default index, the status column that [main] computes is
    the list of the statuses of the rows' own tasks. *)
Lemma status_column nets timeout urls (m : gmap nat value) :
  (forall i, m !! i
             = (fun url => task_status (nets i) url timeout) <$> urls !! i) ->
  map (status_get m) (range_index (length urls))
  = imap (fun i url => task_status (nets i) url timeout) urls.
Proof.
  intros Hm. apply list_eq. intros i.
  rewrite list_lookup_imap. unfold range_index.
  change (map (status_get m)
            (map (fun i => VInt (Z.of_nat i)) (seq 0 (length urls))))
    with (status_get m
            <$> ((fun i => VInt (Z.of_nat i)) <$> seq 0 (length urls))).
  rewrite !list_lookup_fmap.
  destruct (urls !! i) as [url|] eqn:Hi; simpl.
  - assert (Hs : seq 0 (length urls) !! i = Some i).
    { apply lookup_seq. split; [reflexivity|]. eapply lookup_lt_Some, Hi. }
    rewrite Hs. simpl. rewrite status_get_position, Hm, Hi. reflexivity.
  - assert (Hs : seq 0 (length urls) !! i = None).
    { apply lookup_ge_None. rewrite length_seq. apply lookup_ge_None, Hi. }
    rewrite Hs. reflexivity.
Qed.

Lemma task_statuses_lookup args df nets i :
  task_statuses args df nets !! i
  = (fun url => task_status (nets i) url (arg_timeout args))
      <$> column_values df (arg_column args) !! i.
Proof. apply expected_results_lookup. Qed.

Lemma row_labels_range args df nets :
  has_column df (arg_column args) = true ->
  index df = range_index (length (rows df)) ->
  row_labels args df nets = own_statuses args df nets.
Proof.
  intros Hcol Hidx. unfold row_labels, own_statuses.
  rewrite Hidx, <- (column_values_length df _ Hcol).
  apply status_column, task_statuses_lookup.
Qed.



Lemma row_labels_length args df nets :
  well_indexed df -> length (row_labels args df nets) = length (rows df).
Proof. intros H. unfold row_labels. rewrite length_map. exact H. Qed.

Lemma select_rows_rows df mask :
  length mask = length (rows df) ->
  rows (select_rows df mask) = select (rows df) mask.
Proof.
  destruct mask as [|b mask]; [|reflexivity]. simpl.
  destruct (rows df); [reflexivity|discriminate].
Qed.

Lemma with_status_rows df m :
  rows (with_status df m)
  = zip_with
      (match column_pos "IMAGE_STATUS" (columns df) with
       | Some p => overwrite_label p
       | None => append_label
       end)
      (rows df) (map (status_get m) (index df)).
Proof.
  unfold with_status, set_column.
  destruct (column_pos "IMAGE_STATUS" (columns df)); reflexivity.
Qed.

Lemma with_status_length df m :
  well_indexed df -> length (rows (with_status df m)) = length (rows df).
Proof.
  intros H. rewrite with_status_rows, length_zip_with, length_map, H.
  apply Nat.min_id.
Qed.

(** The status column of the frame with the statuses, read back. *)
Lemma with_status_column df m :
  rectangular df ->
  select (rows (with_status df m))
    (map is_broken (column_values (with_status df m) "IMAGE_STATUS"))
  = labelled_rows (status_put df) (rows df) (map (status_get m) (index df))
  /\ length (column_values (with_status df m) "IMAGE_STATUS")
     = length (rows (with_status df m)).
Proof.
  intros Hrect. unfold with_status, set_column, status_put, column_values.
  destruct (column_pos "IMAGE_STATUS" (columns df)) as [p|] eqn:Hp;
    simpl columns; simpl rows.
  - rewrite Hp. split; [|apply length_map].
    apply select_labelled.
    eapply Forall_impl; [exact Hrect|]. intros row Hrow label.
    apply cell_overwrite. rewrite Hrow. eapply column_pos_lt, Hp.
  - rewrite (column_pos_new _ _ Hp). split; [|apply length_map].
    apply select_labelled.
    eapply Forall_impl; [exact Hrect|]. intros row Hrow label.
    apply cell_append. exact Hrow.
Qed.

(** The rows of the frame that a run writes. *)
Lemma report_of_rows args df nets :
  rectangular df ->
  rows (report_of args df nets)
  = labelled_rows (status_put df) (rows df) (row_labels args df nets).
Proof.
  intros Hrect. unfold report_of, broken_rows.
  destruct (with_status_column df (task_statuses args df nets) Hrect)
    as [Hsel Hlen].
  rewrite select_rows_rows by (rewrite length_map; exact Hlen).
  exact Hsel.
Qed.

(** Its columns: none when the table has no row. *)
Lemma report_of_columns args df nets :
  well_indexed df ->
  columns (report_of args df nets)
  = match rows df with
    | [] => []
    | _ :: _ => report_columns df
    end.
Proof.
  intros Hidx. unfold report_of, broken_rows, with_status, set_column,
    report_columns, column_values, well_indexed in *.
  destruct (rows df) as [|row rws] eqn:Hrows.
  - destruct (column_pos "IMAGE_STATUS" (columns df)) as [p|] eqn:Hp;
      simpl columns; simpl rows.
    + rewrite Hp. reflexivity.
    + rewrite (column_pos_new _ _ Hp). reflexivity.
  - destruct (index df) as [|l ls]; [discriminate Hidx|].
    destruct (column_pos "IMAGE_STATUS" (columns df)) as [p|] eqn:Hp;
      simpl columns; simpl rows.
    + rewrite Hp. reflexivity.
    + rewrite (column_pos_new _ _ Hp). reflexivity.
Qed.

Lemma submit_trace i net url timeout :
  future_trace (submit i net url timeout)
  = (run (check_one url timeout net)).1.
Proof. unfold submit. destruct (run _). reflexivity. Qed.

(** The network activity of a dispatch: the trace of every task, in
    submission order. *)
Lemma submit_all_traces nets urls timeout :
  map future_trace ((submit_all nets urls timeout).*1)
  = imap (fun i url => (run (check_one url timeout (nets i))).1) urls.
Proof.
  unfold submit_all.
  change (map future_trace) with (fmap (M:=list) future_trace).
  rewrite !fmap_imap. apply imap_ext. intros i url _. simpl.
  apply submit_trace.
Qed.

(** A run up to the writing of the report: the dispatch ends normally
    and the frame handed to [to_csv] does not depend on the order in
    which the tasks finished. *)
Lemma main_dispatched args os nets order df :
  read_csv os (arg_input args) = Ok df ->
  has_column df (arg_column args) = true ->
  0 < arg_workers args ->
  order ≡ₚ seq 0 (length (rows df)) ->
  main args os nets order
  = let traces :=
      imap (fun i url => (run (check_one url (arg_timeout args) (nets i))).1)
        (column_values df (arg_column args)) in
    let dirs :=
      if wants_makedirs os (arg_output args)
      then [dirname (arg_output args)] else [] in
    match (if wants_makedirs os (arg_output args)
           then makedirs os (dirname (arg_output args))
           else Ok tt)
    with
    | Raised e => RunReport (Uncaught e) [] [] traces []
    | Ok _ =>
        match to_csv os (arg_output args) (report_of args df nets) with
        | Raised e => RunReport (Uncaught e) [] [] traces dirs
        | Ok _ =>
            RunReport Completed
              (console (with_status df (task_statuses args df nets))
                 (report_of args df nets) (arg_output args))
              [(arg_output args, report_of args df nets)]
              traces dirs
        end
    end.
Proof.
  intros Hread Hcol Hw Horder.
  rewrite <- (column_values_length df _ Hcol) in Horder.
  destruct (dispatch_results nets (arg_timeout args) order
              (column_values df (arg_column args)) (arg_workers args)
              Hw Horder) as [results [Hd [_ Hmap]]].
  unfold main. rewrite Hread, Hcol, Hd, submit_all_traces. simpl negb.
  cbv beta iota zeta. rewrite Hmap. reflexivity.
Qed.

(** A run that completes, in closed form. *)
Lemma main_completed args os nets order df :
  read_csv os (arg_input args) = Ok df ->
  has_column df (arg_column args) = true ->
  0 < arg_workers args ->
  order ≡ₚ seq 0 (length (rows df)) ->
  well_indexed df ->
  output_ok os args (report_of args df nets) ->
  main args os nets order
  = RunReport Completed
      [("Checked " ++ str_of_nat (length (rows df)) ++ " rows.")%string;
       ("Broken rows: "
        ++ str_of_nat (length (rows (report_of args df nets))))%string;
       ("Wrote: " ++ arg_output args)%string]
      [(arg_output args, report_of args df nets)]
      (imap (fun i url => (run (check_one url (arg_timeout args) (nets i))).1)
         (column_values df (arg_column args)))
      (if wants_makedirs os (arg_output args)
       then [dirname (arg_output args)] else []).
Proof.
  intros Hread Hcol Hw Horder Hidx [Hmk Hcsv].
  rewrite (main_dispatched args os nets order df Hread Hcol Hw Horder).
  cbv zeta. rewrite Hcsv. unfold console.
  rewrite (with_status_length _ _ Hidx).
  destruct (wants_makedirs os (arg_output args)); [|reflexivity].
  rewrite (Hmk eq_refl). reflexivity.
Qed.

End ReportFacts.

(** * The report: theorems *)



Lemma df_three_rectangular : rectangular Scenario.df_three.
Proof. repeat constructor. Qed.


(** The same scenario, computed: rows 1 and 2 are written, labelled 404
    and ["empty"], and the console reports 3 rows and 2 broken rows. *)
Example main_three_rows :
  main Scenario.args_default (Scenario.os_reading Scenario.df_three)
    (fun _ => Scenario.net_a_test) Scenario.order_201
  = RunReport Completed
      ["Checked 3 rows."; "Broken rows: 2"; "Wrote: out/broken.csv"]
      [("out/broken.csv",
        DataFrame ["SKU"; "IMAGE_URLS"; "IMAGE_STATUS"] [VInt 1; VInt 2]
          [[VInt 2; VStr "http://a.test/missing.png"; StatusCode 404];
           [VInt 3; VNaN; EmptySentinel]])]
      [[ECall (head_request "http://a.test/ok.png" 10)];
       [ECall (head_request "http://a.test/missing.png" 10)];
       []]
      ["out"].
Proof. reflexivity. Qed.

(** A table without rows: the file has no columns. *)
Example main_no_rows :
  main Scenario.args_default
    (Scenario.os_reading (DataFrame ["SKU"; "IMAGE_URLS"] [] []))
    (fun _ => Scenario.net_a_test) []
  = RunReport Completed
      ["Checked 0 rows."; "Broken rows: 0"; "Wrote: out/broken.csv"]
      [("out/broken.csv", DataFrame [] [] [])]
      [] ["out"].
Proof. reflexivity. Qed.

(** C8.  When the configured column is not among the columns of the input,
    [main] ends with [SystemExit], its message naming the column and
    listing the columns of the input; nothing was sent to the network,
    nothing was written, no directory was made and nothing was printed. *)
Theorem main_missing_column args os nets order df :
  read_csv os (arg_input args) = Ok df ->
  arg_column args ∉ columns df ->
  main args os nets order
  = RunReport
      (SystemExit ("Column '" ++ arg_column args ++ "' not found. Columns: "
                   ++ repr_list (columns df))%string)
      [] [] [] []
  /\ run_network (main args os nets order) = []
  /\ run_written (main args os nets order) = [].
Proof.
  intros Hread Hcol. apply column_pos_elem_of in Hcol.
  assert (H : main args os nets order
              = RunReport
                  (SystemExit ("Column '" ++ arg_column args
                               ++ "' not found. Columns: "
                               ++ repr_list (columns df))%string)
                  [] [] [] []).
  { unfold main, has_column. rewrite Hread, Hcol. reflexivity. }
  rewrite H. repeat split.
Qed.

Lemma main_missing_column_witness :
  main Scenario.args_other_column (Scenario.os_reading Scenario.df_three)
    (fun _ => Scenario.net_a_test) Scenario.order_201
  = RunReport
      (SystemExit ("Column '" ++ arg_column Scenario.args_other_column
                   ++ "' not found. Columns: "
                   ++ repr_list (columns Scenario.df_three))%string)
      [] [] [] []
  /\ run_network (main Scenario.args_other_column
                    (Scenario.os_reading Scenario.df_three)
                    (fun _ => Scenario.net_a_test) Scenario.order_201) = []
  /\ run_written (main Scenario.args_other_column
                    (Scenario.os_reading Scenario.df_three)
                    (fun _ => Scenario.net_a_test) Scenario.order_201) = [].
Proof.
  apply (main_missing_column Scenario.args_other_column
           (Scenario.os_reading Scenario.df_three)
           (fun _ => Scenario.net_a_test) Scenario.order_201
           Scenario.df_three).
  - reflexivity.
  - apply column_pos_elem_of. reflexivity.
Defined.

Example main_missing_column_message :
  run_ending (main Scenario.args_other_column
                (Scenario.os_reading Scenario.df_three)
                (fun _ => Scenario.net_a_test) Scenario.order_201)
  = SystemExit "Column 'PHOTO' not found. Columns: ['SKU', 'IMAGE_URLS']".
Proof. reflexivity. Qed.
(** * Further properties of the probe *)

Section TraceFacts.

Variable net : network.
Variable url : string.
Variable timeout : Z.

(** One attempt sends HEAD, perhaps GET, and the answer to the last of
    them is what the attempt ends with. *)
Lemma attempt_body_last t :
  exists (g : bool) t0 req,
    (attempt_body net url timeout t).1
    = t ++ ECall (head_request url timeout)
          :: (if g then [ECall (get_request url timeout)] else [])
    /\ (attempt_body net url timeout t).1 = t0 ++ [ECall req]
    /\ match (attempt_body net url timeout t).2 with
       | Ok v =>
           exists resp, net t0 req = Ok resp
                        /\ v = StatusCode (status_code resp)
                        /\ (req_method req = HEAD ->
                            wants_get (status_code resp) = false)
       | Raised e => net t0 req = Raised e
       end.
Proof.
  rewrite attempt_body_eq.
  destruct (net t _) as [r|e] eqn:Hh.
  - destruct (wants_get (status_code r)) eqn:Hw.
    + exists true, (t ++ [ECall (head_request url timeout)]),
        (get_request url timeout).
      destruct (net _ (get_request url timeout)) as [r'|e'] eqn:Hg; simpl;
        (split; [reflexivity|]);
        (split; [rewrite <- app_assoc; reflexivity|]).
      * exists r'. repeat split; try assumption; discriminate.
      * reflexivity || exact Hg.
    + exists false, t, (head_request url timeout). simpl.
      repeat split. exists r. repeat split; try assumption. intros _; exact Hw.
  - exists false, t, (head_request url timeout). simpl. repeat split;
      try assumption.
Qed.

Lemma attempts_trace_cons k g g' gets :
  attempts_trace url timeout k (g :: g' :: gets)
  = (ECall (head_request url timeout)
       :: (if g then [ECall (get_request url timeout)] else []))
    ++ ESleep (backoff k) :: attempts_trace url timeout (S k) (g' :: gets).
Proof. reflexivity. Qed.

Lemma attempts_trace_one k (g : bool) :
  attempts_trace url timeout k [g]
  = ECall (head_request url timeout)
      :: (if g then [ECall (get_request url timeout)] else []).
Proof. destruct g; reflexivity. Qed.

(** The loop from attempt [k] on, with [n] attempts to follow: the shape
    of what it adds to the trace, and how it ends. *)
Lemma retry_loop_shape n : forall k t,
  (k + n = RETRIES)%nat ->
  exists gets,
    gets <> []
    /\ (length gets <= S n)%nat
    /\ (retry_loop net url timeout (seq k (S n)) t).1
       = t ++ attempts_trace url timeout k gets
    /\ decided_by_last net (length gets = S n)
         (retry_loop net url timeout (seq k (S n)) t).
Proof.
  induction n as [|n IH]; intros k t Hk;
    rewrite <- cons_seq, retry_loop_cons;
    destruct (attempt_body_last t) as [g [t0 [req [Ht [Ht0 Hres]]]]];
    destruct (attempt_body net url timeout t) as [t' [v|e]];
    simpl in Ht, Ht0, Hres.
  - exists [g]. rewrite attempts_trace_one.
    split; [discriminate|]. split; [simpl; lia|]. split; [exact Ht|].
    exists t0, req. split; [exact Ht0|]. left. exact Hres.
  - exists [g]. rewrite attempts_trace_one.
    replace (k <? RETRIES)%nat with false by (symmetry; apply Nat.ltb_ge; lia).
    destruct (is_RequestException e) eqn:He; simpl;
      (split; [discriminate|]); (split; [simpl; lia|]); (split; [exact Ht|]);
      exists t0, req; (split; [exact Ht0|]); simpl.
    + right. exists e. repeat split; assumption.
    + split; assumption.
  - exists [g]. rewrite attempts_trace_one.
    split; [discriminate|]. split; [simpl; lia|]. split; [exact Ht|].
    exists t0, req. split; [exact Ht0|]. left. exact Hres.
  - replace (k <? RETRIES)%nat with true by (symmetry; apply Nat.ltb_lt; lia).
    destruct (is_RequestException e) eqn:He.
    + destruct (IH (S k) (t' ++ [ESleep (backoff k)]) ltac:(lia))
        as [gets [Hne [Hlen [Hshape Hlast]]]].
      exists (g :: gets).
      split; [discriminate|]. split; [simpl; lia|]. split.
      * rewrite Hshape, Ht. destruct gets as [|g' gets]; [contradiction|].
        rewrite attempts_trace_cons, <- !app_assoc. reflexivity.
      * destruct Hlast as [t1 [req1 [Ht1 Hres1]]].
        exists t1, req1. split; [exact Ht1|].
        destruct (retry_loop net url timeout (seq (S k) (S n))
                    (t' ++ [ESleep (backoff k)])).2 as [v|e1];
          [|exact Hres1].
        destruct Hres1 as [H|[e1 [H1 [H2 [H3 H4]]]]]; [left; exact H|].
        right. exists e1. repeat split; try assumption. simpl. lia.
    + exists [g]. rewrite attempts_trace_one.
      split; [discriminate|]. split; [simpl; lia|]. split; [exact Ht|].
      exists t0, req. split; [exact Ht0|]. simpl. split; assumption.
Qed.

End TraceFacts.

Section ShapeFacts.

Variable url : string.
Variable timeout : Z.

Lemma attempts_trace_attempts gets : forall k,
  attempts_made (attempts_trace url timeout k gets) = length gets.
Proof.
  unfold attempts_made.
  induction gets as [|g [|g' gets] IH]; intros k; [reflexivity| |].
  - destruct g; reflexivity.
  - rewrite attempts_trace_cons, List.filter_app, length_app.
    change (List.filter is_head (ESleep (backoff k)
              :: attempts_trace url timeout (S k) (g' :: gets)))
      with (List.filter is_head (attempts_trace url timeout (S k) (g' :: gets))).
    rewrite IH. destruct g; reflexivity.
Qed.

Lemma attempts_trace_sleeps gets : forall k,
  sleeps (attempts_trace url timeout k gets)
  = map backoff (seq k (length gets - 1)).
Proof.
  unfold sleeps.
  induction gets as [|g [|g' gets] IH]; intros k; [reflexivity| |].
  - destruct g; reflexivity.
  - rewrite attempts_trace_cons, omap_app.
    change (omap _ (ESleep (backoff k)
              :: attempts_trace url timeout (S k) (g' :: gets)))
      with (backoff k
              :: omap (fun ev => match ev with
                                 | ESleep q => Some q
                                 | ECall _ => None
                                 end)
                   (attempts_trace url timeout (S k) (g' :: gets))).
    rewrite IH.
    replace (length (g :: g' :: gets) - 1)%nat
      with (S (length (g' :: gets) - 1)) by (simpl; lia).
    destruct g; reflexivity.
Qed.

Lemma attempts_trace_requests gets : forall k,
  (requests_made (attempts_trace url timeout k gets) <= 2 * length gets)%nat.
Proof.
  unfold requests_made.
  induction gets as [|g [|g' gets] IH]; intros k; [simpl; lia| |].
  - destruct g; simpl; lia.
  - rewrite attempts_trace_cons, List.filter_app, length_app.
    change (List.filter is_call (ESleep (backoff k)
              :: attempts_trace url timeout (S k) (g' :: gets)))
      with (List.filter is_call (attempts_trace url timeout (S k) (g' :: gets))).
    specialize (IH (S k)). simpl length in *. destruct g; simpl; lia.
Qed.

Lemma attempts_trace_calls gets : forall k r,
  In (ECall r) (attempts_trace url timeout k gets) ->
  r = head_request url timeout \/ r = get_request url timeout.
Proof.
  induction gets as [|g [|g' gets] IH]; intros k r; [intros []| |].
  - rewrite attempts_trace_one. destruct g; simpl; intros H;
      repeat (destruct H as [H|H]; [injection H as <-; auto|]); destruct H.
  - rewrite attempts_trace_cons. intros H. apply in_app_or in H as [H|H].
    + destruct g; simpl in H;
        repeat (destruct H as [H|H]; [injection H as <-; auto|]); destruct H.
    + destruct H as [H|H]; [discriminate H|]. exact (IH _ _ H).
Qed.

End ShapeFacts.

(** A probe of a non-blank URL: the shape of its trace and how it ends. *)
Lemma check_one_shape s timeout net :
  is_blank (VStr s) = false ->
  exists gets,
    gets <> []
    /\ (length gets <= RETRIES + 1)%nat
    /\ (run (check_one (VStr s) timeout net)).1
       = attempts_trace (strip s) timeout 0 gets
    /\ decided_by_last net (length gets = (RETRIES + 1)%nat)
         (run (check_one (VStr s) timeout net)).
Proof.
  intros Hs. rewrite (check_one_nonblank _ _ _ Hs).
  destruct (retry_loop_shape net (strip s) timeout RETRIES 0 [] eq_refl)
    as [gets [Hne [Hlen [Hshape Hlast]]]].
  exists gets. split; [exact Hne|]. split; [lia|]. split; [exact Hshape|].
  destruct Hlast as [t0 [req [Ht0 Hres]]].
  exists t0, req. split; [exact Ht0|].
  unfold run, attempts_range.
  change (seq 0 (RETRIES + 1)) with (seq 0 (S RETRIES)).
  destruct (retry_loop net (strip s) timeout (seq 0 (S RETRIES)) []).2
    as [v|e]; [|exact Hres].
  destruct Hres as [H|[e [H1 [H2 [H3 H4]]]]]; [left; exact H|].
  right. exists e. repeat split; try assumption; lia.
Qed.

Lemma check_one_blank url timeout net :
  is_blank url = true -> run (check_one url timeout net) = ([], Ok EmptySentinel).
Proof.
  destruct url as [z|s| |]; try reflexivity.
  unfold is_blank, check_one. intros ->. reflexivity.
Qed.

(** X1.  On every network, the trace of a probe of a non-blank URL is a
    run of one to [RETRIES + 1] attempts: each attempt is a HEAD request,
    followed or not by a GET request, both to the stripped URL with the
    given timeout; and a sleep of [0.5 * (k + 1)] seconds stands between
    attempt [k] and attempt [k + 1], and nowhere else. *)
Theorem check_one_trace_shape s timeout net :
  is_blank (VStr s) = false ->
  exists gets,
    (1 <= length gets <= RETRIES + 1)%nat
    /\ (run (check_one (VStr s) timeout net)).1
       = attempts_trace (strip s) timeout 0 gets
    /\ attempts_made (run (check_one (VStr s) timeout net)).1 = length gets
    /\ sleeps (run (check_one (VStr s) timeout net)).1
       = map backoff (seq 0 (length gets - 1)).
Proof.
  intros Hs.
  destruct (check_one_shape s timeout net Hs) as [gets [Hne [Hlen [Ht _]]]].
  exists gets. rewrite Ht. split.
  - destruct gets; [contradiction|simpl in *; lia].
  - split; [reflexivity|].
    split; [apply attempts_trace_attempts|apply attempts_trace_sleeps].
Qed.

Lemma check_one_trace_shape_witness :
  exists gets,
    (1 <= length gets <= RETRIES + 1)%nat
    /\ (run (check_one (VStr " http://a.test/x.png ") 10
               Scenario.net_flaky_405_404)).1
       = attempts_trace (strip " http://a.test/x.png ") 10 0 gets
    /\ attempts_made (run (check_one (VStr " http://a.test/x.png ") 10
                             Scenario.net_flaky_405_404)).1 = length gets
    /\ sleeps (run (check_one (VStr " http://a.test/x.png ") 10
                      Scenario.net_flaky_405_404)).1
       = map backoff (seq 0 (length gets - 1)).
Proof.
  apply (check_one_trace_shape " http://a.test/x.png " 10
           Scenario.net_flaky_405_404).
  reflexivity.
Defined.

(** X2.  Whatever the input and the network, one probe makes at most
    [RETRIES + 1 = 3] attempts, sends at most [2 * (RETRIES + 1) = 6]
    requests, sleeps at most [RETRIES = 2] times and at most 1.5 seconds
    in all. *)
Theorem check_one_bounded url timeout net :
  (attempts_made (run (check_one url timeout net)).1 <= RETRIES + 1)%nat
  /\ (requests_made (run (check_one url timeout net)).1
      <= 2 * (RETRIES + 1))%nat
  /\ (length (sleeps (run (check_one url timeout net)).1) <= RETRIES)%nat
  /\ (total_sleep (run (check_one url timeout net)).1 <= 3 # 2)%Q.
Proof.
  destruct (is_blank url) eqn:Hb.
  - rewrite (check_one_blank _ _ _ Hb).
    unfold attempts_made, requests_made, total_sleep. simpl.
    split; [lia|]. split; [lia|]. split; [lia|].
    apply Qle_bool_iff. reflexivity.
  - destruct url as [z|s| |]; try discriminate Hb.
    destruct (check_one_shape s timeout net Hb) as [gets [Hne [Hlen [Ht _]]]].
    rewrite Ht. unfold total_sleep.
    rewrite attempts_trace_attempts, attempts_trace_sleeps, length_map,
      length_seq.
    pose proof (attempts_trace_requests (strip s) timeout gets 0) as Hreq.
    split; [exact Hlen|]. split; [lia|]. split; [lia|].
    destruct gets as [|g1 [|g2 [|g3 [|g4 gets]]]]; simpl in Hlen;
      try contradiction; try (apply Qle_bool_iff; reflexivity).
    unfold RETRIES in Hlen. lia.
Qed.

(** X3.  When a probe returns a status code, that code is the status of
    the response to the last request it sent, and nothing follows that
    request; if the request was a HEAD, the code is one that calls for no
    GET (not 405, and below 400 or equal to 404). *)
Theorem check_one_status_is_last_response url timeout net t s :
  run (check_one url timeout net) = (t, Ok (StatusCode s)) ->
  exists t0 req,
    t = t0 ++ [ECall req]
    /\ net t0 req = Ok (Response s)
    /\ (req_method req = HEAD -> wants_get s = false).
Proof.
  intros Hrun.
  destruct (is_blank url) eqn:Hb.
  { rewrite (check_one_blank _ _ _ Hb) in Hrun. discriminate Hrun. }
  destruct url as [z|u| |]; try discriminate Hb.
  destruct (check_one_shape u timeout net Hb)
    as [gets [_ [_ [_ [t0 [req [Ht0 Hres]]]]]]].
  rewrite Hrun in Ht0, Hres. simpl in Ht0, Hres.
  exists t0, req. split; [exact Ht0|].
  destruct Hres as [[resp [Hnet [Hv Hhead]]]|[e [_ [_ [Hv _]]]]];
    [|discriminate Hv].
  injection Hv as ->. destruct resp as [code]. split; assumption.
Qed.

Lemma check_one_status_is_last_response_witness :
  exists t0 req,
    [ECall (head_request "http://a.test/x.png" 10); ESleep (backoff 0);
     ECall (head_request "http://a.test/x.png" 10);
     ECall (get_request "http://a.test/x.png" 10)] = t0 ++ [ECall req]
    /\ Scenario.net_flaky_405_404 t0 req = Ok (Response 404)
    /\ (req_method req = HEAD -> wants_get 404 = false).
Proof.
  apply (check_one_status_is_last_response (VStr " http://a.test/x.png ") 10
           Scenario.net_flaky_405_404).
  reflexivity.
Defined.

(** X4.  When a probe of a non-blank URL returns a string, it has made all
    [RETRIES + 1] attempts and slept after the first two, its last request
    raised a [RequestException], and the string is ["error: "] followed by
    the type name of that exception. *)
Theorem check_one_error_is_last_exception s timeout net t label :
  is_blank (VStr s) = false ->
  run (check_one (VStr s) timeout net) = (t, Ok (VStr label)) ->
  exists t0 req e,
    t = t0 ++ [ECall req]
    /\ net t0 req = Raised e
    /\ is_RequestException e = true
    /\ label = ("error: " ++ type_name e)%string
    /\ attempts_made t = (RETRIES + 1)%nat
    /\ sleeps t = [backoff 0; backoff 1].
Proof.
  intros Hb Hrun.
  destruct (check_one_shape s timeout net Hb)
    as [gets [_ [_ [Ht [t0 [req [Ht0 Hres]]]]]]].
  rewrite Hrun in Ht, Ht0, Hres. simpl in Ht, Ht0, Hres.
  destruct Hres as [[resp [_ [Hv _]]]|[e [Hnet [He [Hv Hlen]]]]];
    [discriminate Hv|].
  exists t0, req, e. injection Hv as ->.
  repeat split; try assumption.
  - rewrite Ht, attempts_trace_attempts. exact Hlen.
  - rewrite Ht, attempts_trace_sleeps, Hlen. reflexivity.
Qed.

Lemma check_one_error_is_last_exception_witness :
  exists t0 req e,
    [ECall (head_request "http://a.test/x.png" 10); ESleep (backoff 0);
     ECall (head_request "http://a.test/x.png" 10); ESleep (backoff 1);
     ECall (head_request "http://a.test/x.png" 10)] = t0 ++ [ECall req]
    /\ Scenario.net_down t0 req = Raised e
    /\ is_RequestException e = true
    /\ "error: ConnectionError" = ("error: " ++ type_name e)%string
    /\ attempts_made
         [ECall (head_request "http://a.test/x.png" 10); ESleep (backoff 0);
          ECall (head_request "http://a.test/x.png" 10); ESleep (backoff 1);
          ECall (head_request "http://a.test/x.png" 10)] = (RETRIES + 1)%nat
    /\ sleeps
         [ECall (head_request "http://a.test/x.png" 10); ESleep (backoff 0);
          ECall (head_request "http://a.test/x.png" 10); ESleep (backoff 1);
          ECall (head_request "http://a.test/x.png" 10)]
       = [backoff 0; backoff 1].
Proof.
  apply (check_one_error_is_last_exception "http://a.test/x.png" 10
           Scenario.net_down).
  - reflexivity.
  - reflexivity.
Defined.

(** X5.  When [check_one] raises, the exception is the one its last
    request raised, it is no [RequestException], and the probe stopped
    there: no sleep and no retry follows an exception of another kind. *)
Theorem check_one_raises_at_once url timeout net t e :
  run (check_one url timeout net) = (t, Raised e) ->
  exists t0 req,
    t = t0 ++ [ECall req]
    /\ net t0 req = Raised e
    /\ is_RequestException e = false.
Proof.
  intros Hrun.
  destruct (is_blank url) eqn:Hb.
  { rewrite (check_one_blank _ _ _ Hb) in Hrun. discriminate Hrun. }
  destruct url as [z|u| |]; try discriminate Hb.
  destruct (check_one_shape u timeout net Hb)
    as [gets [_ [_ [_ [t0 [req [Ht0 Hres]]]]]]].
  rewrite Hrun in Ht0, Hres. simpl in Ht0, Hres.
  exists t0, req. split; [exact Ht0|exact Hres].
Qed.

Lemma check_one_raises_at_once_witness :
  exists t0 req,
    [ECall (head_request "http://a.test/x.png" 10)] = t0 ++ [ECall req]
    /\ Scenario.net_fault t0 req = Raised (Exc false "LocationParseError")
    /\ is_RequestException (Exc false "LocationParseError") = false.
Proof.
  apply (check_one_raises_at_once (VStr "http://a.test/x.png") 10
           Scenario.net_fault).
  reflexivity.
Defined.

(** X6.  Every request a probe sends is the HEAD or the GET request for
    the stripped URL: it carries the timeout the probe was given, follows
    redirects, and streams the body exactly when it is a GET. *)
Theorem check_one_requests url timeout net r :
  In (ECall r) (run (check_one url timeout net)).1 ->
  exists s,
    url = VStr s
    /\ (r = head_request (strip s) timeout \/ r = get_request (strip s) timeout)
    /\ req_timeout r = timeout
    /\ allow_redirects r = true
    /\ req_stream r = match req_method r with GET => true | HEAD => false end.
Proof.
  intros Hin.
  destruct (is_blank url) eqn:Hb.
  { rewrite (check_one_blank _ _ _ Hb) in Hin. destruct Hin. }
  destruct url as [z|s| |]; try discriminate Hb.
  destruct (check_one_shape s timeout net Hb) as [gets [_ [_ [Ht _]]]].
  rewrite Ht in Hin. apply attempts_trace_calls in Hin.
  exists s. split; [reflexivity|]. split; [exact Hin|].
  destruct Hin as [-> | ->]; repeat split.
Qed.

Lemma check_one_requests_witness :
  exists s,
    VStr " http://a.test/x.png " = VStr s
    /\ (get_request "http://a.test/x.png" 10 = head_request (strip s) 10
        \/ get_request "http://a.test/x.png" 10 = get_request (strip s) 10)
    /\ req_timeout (get_request "http://a.test/x.png" 10) = 10
    /\ allow_redirects (get_request "http://a.test/x.png" 10) = true
    /\ req_stream (get_request "http://a.test/x.png" 10)
       = match req_method (get_request "http://a.test/x.png" 10) with
         | GET => true
         | HEAD => false
         end.
Proof.
  apply (check_one_requests (VStr " http://a.test/x.png ") 10
           Scenario.net_flaky_405_404).
  simpl. right; right; right; left. reflexivity.
Defined.

(** X7.  The empty sentinel means a blank input and nothing else: on every
    network, [check_one] returns ["empty"] exactly when the input is not a
    string or strips to the empty string, and exactly then it sends
    nothing. *)
Theorem check_one_empty_iff_blank url timeout net :
  ((run (check_one url timeout net)).2 = Ok EmptySentinel
   <-> is_blank url = true)
  /\ ((run (check_one url timeout net)).1 = [] <-> is_blank url = true).
Proof.
  destruct (is_blank url) eqn:Hb.
  - rewrite (check_one_blank _ _ _ Hb). split; split; reflexivity.
  - destruct url as [z|s| |]; try discriminate Hb.
    destruct (check_one_shape s timeout net Hb)
      as [gets [Hne [_ [Ht [t0 [req [_ Hres]]]]]]].
    split; split; try discriminate.
    + intros H. rewrite H in Hres.
      destruct Hres as [[resp [_ [Hv _]]]|[e [_ [_ [Hv _]]]]];
        discriminate Hv.
    + rewrite Ht. destruct gets; [contradiction|discriminate].
Qed.

Section PaddingFacts.

Lemma lstrip_chars_all_space ws :
  forallb isspace ws = true -> lstrip_chars ws = [].
Proof.
  induction ws as [|c ws IH]; [reflexivity|]. simpl.
  intros H. apply andb_true_iff in H as [-> H]. exact (IH H).
Qed.

Lemma lstrip_chars_pad ws l :
  forallb isspace ws = true -> lstrip_chars (ws ++ l) = lstrip_chars l.
Proof.
  induction ws as [|c ws IH]; [reflexivity|]. simpl.
  intros H. apply andb_true_iff in H as [-> H]. exact (IH H).
Qed.

Lemma forallb_rev {A} (f : A -> bool) l :
  forallb f l = true -> forallb f (rev l) = true.
Proof.
  rewrite !forallb_forall. intros H x Hx. apply H, in_rev, Hx.
Qed.

Lemma rstrip_chars_pad l ws :
  forallb isspace ws = true -> rstrip_chars (l ++ ws) = rstrip_chars l.
Proof.
  intros H. unfold rstrip_chars.
  rewrite rev_app_distr, lstrip_chars_pad by (apply forallb_rev, H).
  reflexivity.
Qed.

Lemma strip_chars_pad_right l ws :
  forallb isspace ws = true -> strip_chars (l ++ ws) = strip_chars l.
Proof.
  intros H. unfold strip_chars.
  induction l as [|c l IH]; simpl.
  - rewrite (lstrip_chars_all_space ws H). reflexivity.
  - destruct (isspace c); [exact IH|].
    exact (rstrip_chars_pad (c :: l) ws H).
Qed.

Lemma strip_chars_pad ws1 l ws2 :
  forallb isspace ws1 = true -> forallb isspace ws2 = true ->
  strip_chars (ws1 ++ l ++ ws2) = strip_chars l.
Proof.
  intros H1 H2. unfold strip_chars at 1.
  rewrite (lstrip_chars_pad ws1 _ H1).
  exact (strip_chars_pad_right l ws2 H2).
Qed.

Lemma list_ascii_of_string_app a b :
  list_ascii_of_string (a ++ b)
  = list_ascii_of_string a ++ list_ascii_of_string b.
Proof.
  induction a as [|c a IH]; [reflexivity|]. simpl. rewrite IH. reflexivity.
Qed.

Lemma strip_pad pad1 s pad2 :
  all_space pad1 = true -> all_space pad2 = true ->
  strip (pad1 ++ s ++ pad2) = strip s.
Proof.
  intros H1 H2. unfold strip.
  rewrite !list_ascii_of_string_app, (strip_chars_pad _ _ _ H1 H2).
  reflexivity.
Qed.

End PaddingFacts.

(** X8.  White space around a URL makes no difference to its probe: with
    any white space before and after it, the probe sends the same
    requests and ends the same way, on every network. *)
Theorem check_one_ignores_padding pad1 s pad2 timeout net :
  all_space pad1 = true ->
  all_space pad2 = true ->
  run (check_one (VStr (pad1 ++ s ++ pad2)) timeout net)
  = run (check_one (VStr s) timeout net).
Proof.
  intros H1 H2. unfold check_one.
  rewrite (strip_pad pad1 s pad2 H1 H2). reflexivity.
Qed.

Lemma check_one_ignores_padding_witness :
  run (check_one (VStr ("  " ++ "http://a.test/missing.png" ++ " "))
         10 Scenario.net_a_test)
  = run (check_one (VStr "http://a.test/missing.png") 10 Scenario.net_a_test).
Proof.
  apply (check_one_ignores_padding "  " "http://a.test/missing.png" " " 10
           Scenario.net_a_test); reflexivity.
Defined.

(** * Further properties of a run *)

Section RunFacts.

Lemma check_one_requests_le url timeout net :
  (requests_made (run (check_one url timeout net)).1 <= 2 * (RETRIES + 1))%nat.
Proof.
  destruct (is_blank url) eqn:Hb.
  - rewrite (check_one_blank _ _ _ Hb). unfold requests_made. simpl. lia.
  - destruct url as [z|s| |]; try discriminate Hb.
    destruct (check_one_shape s timeout net Hb) as [gets [_ [Hlen [Ht _]]]].
    rewrite Ht.
    pose proof (attempts_trace_requests (strip s) timeout gets 0). lia.
Qed.

(** The network activity of any run: nothing, or the traces of the tasks
    of the rows. *)
Lemma main_network args os nets order :
  run_network (main args os nets order) = []
  \/ exists df,
       read_csv os (arg_input args) = Ok df
       /\ has_column df (arg_column args) = true
       /\ run_network (main args os nets order)
          = imap (fun i url =>
                    (run (check_one url (arg_timeout args) (nets i))).1)
              (column_values df (arg_column args)).
Proof.
  unfold main.
  destruct (read_csv os (arg_input args)) as [df|e] eqn:Hread;
    [|left; reflexivity].
  destruct (has_column df (arg_column args)) eqn:Hcol; [|left; reflexivity].
  simpl negb. cbv iota. unfold dispatch.
  destruct (arg_workers args <=? 0); [left; reflexivity|].
  right. exists df. split; [reflexivity|]. split; [exact Hcol|].
  rewrite <- submit_all_traces.
  destruct (collect _ _ _); [|reflexivity].
  destruct (if wants_makedirs os (arg_output args)
            then makedirs os (dirname (arg_output args)) else Ok tt);
    [|reflexivity].
  destruct (to_csv os (arg_output args) _); reflexivity.
Qed.

Lemma requests_sent_le (traces : list trace) b :
  Forall (fun t => (requests_made t <= b)%nat) traces ->
  (requests_sent traces <= b * length traces)%nat.
Proof.
  unfold requests_sent. induction 1 as [|t traces Ht _ IH]; simpl; lia.
Qed.

End RunFacts.

(** X9.  Whatever the file system, the arguments, the network and the
    order in which the tasks finish, every probe of a run sends at most
    [2 * (RETRIES + 1) = 6] requests; the run probes each row of the
    table it read at most once, and as a whole sends at most six requests
    per row. *)
Theorem main_requests_bounded args os nets order :
  Forall (fun t => (requests_made t <= 2 * (RETRIES + 1))%nat)
    (run_network (main args os nets order))
  /\ forall df,
       read_csv os (arg_input args) = Ok df ->
       (length (run_network (main args os nets order))
        <= length (rows df))%nat
       /\ (requests_sent (run_network (main args os nets order))
           <= 2 * (RETRIES + 1) * length (rows df))%nat.
Proof.
  assert (Hall : Forall (fun t => (requests_made t <= 2 * (RETRIES + 1))%nat)
                   (run_network (main args os nets order))).
  { destruct (main_network args os nets order) as [->|[df [_ [_ ->]]]];
      [constructor|].
    apply Forall_forall. intros t Ht.
    apply list_elem_of_lookup in Ht as [i Hi].
    rewrite list_lookup_imap in Hi.
    destruct (column_values df (arg_column args) !! i); [|discriminate].
    injection Hi as <-. apply check_one_requests_le. }
  split; [exact Hall|]. intros df Hread.
  assert (Hlen : (length (run_network (main args os nets order))
                  <= length (rows df))%nat).
  { destruct (main_network args os nets order) as [->|[df' [Hr [Hcol ->]]]];
      [simpl; lia|].
    rewrite Hread in Hr. injection Hr as <-.
    rewrite length_imap, (column_values_length _ _ Hcol). lia. }
  split; [exact Hlen|].
  pose proof (requests_sent_le _ _ Hall) as Hsum. nia.
Qed.

Section WrittenFacts.

Lemma labelled_rows_nil_l put labels : labelled_rows put [] labels = [].
Proof. reflexivity. Qed.

Lemma labelled_rows_nil_r put rws : labelled_rows put rws [] = [].
Proof. destruct rws; reflexivity. Qed.

Lemma labelled_rows_cons put row rws label labels :
  labelled_rows put (row :: rws) (label :: labels)
  = if is_broken label then put row label :: labelled_rows put rws labels
    else labelled_rows put rws labels.
Proof.
  unfold labelled_rows. simpl. destruct (is_broken label); reflexivity.
Qed.

(** What holds of every input row, once labelled with a broken label,
    holds of every written row. *)
Lemma labelled_rows_Forall put (P Q : list value -> Prop) rws : forall labels,
  Forall P rws ->
  (forall row label, P row -> is_broken label = true -> Q (put row label)) ->
  Forall Q (labelled_rows put rws labels).
Proof.
  induction rws as [|row rws IH]; intros labels HP HQ; [constructor|].
  destruct labels as [|label labels]; [constructor|].
  apply Forall_cons in HP as [Hrow HP].
  rewrite labelled_rows_cons. destruct (is_broken label) eqn:Hb.
  - constructor; [apply HQ; assumption|apply IH; assumption].
  - apply IH; assumption.
Qed.

Lemma labelled_rows_length put rws : forall labels,
  (length (labelled_rows put rws labels) <= length rws)%nat.
Proof.
  induction rws as [|row rws IH]; intros labels; [simpl; lia|].
  destruct labels as [|label labels]; [simpl; lia|].
  rewrite labelled_rows_cons. specialize (IH labels).
  destruct (is_broken label); simpl; lia.
Qed.

(** The [IMAGE_STATUS] column of the written frame and what [main] does
    to a row of the input: the label sits in that column, the row has one
    cell per column of the written frame, and its other cells are those
    of the input row. *)
Lemma status_put_spec df :
  exists p1,
    column_pos "IMAGE_STATUS" (report_columns df) = Some p1
    /\ forall row label,
         length row = length (columns df) ->
         status_put df row label !! p1 = Some label
         /\ length (status_put df row label) = length (report_columns df)
         /\ forall q, q <> p1 -> (q < length (columns df))%nat ->
              status_put df row label !! q = row !! q.
Proof.
  unfold report_columns, status_put.
  destruct (column_pos "IMAGE_STATUS" (columns df)) as [p|] eqn:Hp.
  - exists p. split; [exact Hp|]. intros row label Hrow.
    pose proof (column_pos_lt _ _ _ Hp) as Hlt. unfold overwrite_label.
    split; [apply list_lookup_insert_eq; lia|].
    split; [rewrite length_insert; exact Hrow|].
    intros q Hq _. apply list_lookup_insert_ne. congruence.
  - exists (length (columns df)). split; [apply column_pos_new, Hp|].
    intros row label Hrow. unfold append_label.
    split; [rewrite lookup_app_r, Hrow, Nat.sub_diag by lia; reflexivity|].
    split; [rewrite !length_app, Hrow; reflexivity|].
    intros q _ Hq. apply lookup_app_l. lia.
Qed.

Lemma select_length {A B} (l : list A) (k : list B) : forall mask,
  length l = length k -> length (select l mask) = length (select k mask).
Proof.
  revert k. induction l as [|x l IH]; intros [|y k] mask H;
    try discriminate H; [reflexivity|].
  destruct mask as [|b mask]; [reflexivity|].
  simpl. injection H as H. specialize (IH k mask H).
  destruct b; simpl; congruence.
Qed.

Lemma select_rows_well_indexed df mask :
  well_indexed df -> well_indexed (select_rows df mask).
Proof.
  unfold well_indexed, select_rows. intros H.
  destruct mask as [|b mask]; simpl.
  - rewrite length_map. exact H.
  - apply select_length, H.
Qed.

(** The written frame is rectangular and indexed. *)
Lemma report_of_well_indexed args df nets :
  well_indexed df -> well_indexed (report_of args df nets).
Proof.
  intros H. unfold report_of, broken_rows. apply select_rows_well_indexed.
  unfold well_indexed.
  rewrite (with_status_length _ _ H). unfold with_status, set_column.
  destruct (column_pos "IMAGE_STATUS" (columns df)); exact H.
Qed.

Lemma report_of_rectangular args df nets :
  rectangular df -> well_indexed df -> rectangular (report_of args df nets).
Proof.
  intros Hrect Hidx. destruct (status_put_spec df) as [p1 [_ Hput]].
  unfold rectangular.
  rewrite (report_of_rows _ _ _ Hrect), (report_of_columns _ _ _ Hidx).
  destruct (rows df) as [|row rws] eqn:Hrows; [constructor|].
  rewrite <- Hrows in *.
  apply (labelled_rows_Forall _ _ _ _ _ Hrect).
  intros r label Hr _. apply (Hput r label Hr).
Qed.

End WrittenFacts.

(** X11.  The table a completed run writes is rectangular and indexed and
    has no more rows than the input.  When the input has rows, the table
    has an [IMAGE_STATUS] column and every row in it has a broken status
    in that column, so no row labelled with a status below 400 is ever
    written; when the input has no row, the table has no row and no
    column. *)
Theorem main_writes_only_broken args os nets order df :
  read_csv os (arg_input args) = Ok df ->
  has_column df (arg_column args) = true ->
  0 < arg_workers args ->
  order ≡ₚ seq 0 (length (rows df)) ->
  rectangular df ->
  well_indexed df ->
  output_ok os args (report_of args df nets) ->
  exists out,
    run_written (main args os nets order) = [(arg_output args, out)]
    /\ rectangular out
    /\ well_indexed out
    /\ (length (rows out) <= length (rows df))%nat
    /\ (rows df = [] -> columns out = [] /\ rows out = [])
    /\ (rows df <> [] ->
        exists p,
          column_pos "IMAGE_STATUS" (columns out) = Some p
          /\ Forall (fun row =>
                       is_broken (cell p row) = true
                       /\ forall z, cell p row = StatusCode z -> 400 <= z)
               (rows out)).
Proof.
  intros Hread Hcol Hw Horder Hrect Hidx Hout.
  rewrite (main_completed args os nets order df Hread Hcol Hw Horder Hidx Hout).
  pose proof (report_of_rows args df nets Hrect) as Hrows.
  pose proof (report_of_columns args df nets Hidx) as Hcols.
  exists (report_of args df nets). simpl.
  split; [reflexivity|].
  split; [apply report_of_rectangular; assumption|].
  split; [apply report_of_well_indexed; assumption|].
  split; [rewrite Hrows; apply labelled_rows_length|].
  split.
  - intros Hnil. rewrite Hrows, Hcols, Hnil. split; reflexivity.
  - intros Hne. destruct (status_put_spec df) as [p1 [Hp1 Hput]].
    exists p1. rewrite Hrows, Hcols.
    split; [destruct (rows df); [contradiction|exact Hp1]|].
    apply (labelled_rows_Forall _ _ _ _ _ Hrect).
    intros row label Hrow Hb.
    destruct (Hput row label Hrow) as [Hl _].
    unfold cell. rewrite Hl. simpl. split; [exact Hb|].
    intros z ->. simpl in Hb. apply Z.geb_le in Hb. exact Hb.
Qed.

Lemma main_writes_only_broken_witness :
  exists out,
    run_written (main Scenario.args_default
                   (Scenario.os_reading Scenario.df_three)
                   (fun _ => Scenario.net_a_test) Scenario.order_201)
    = [(arg_output Scenario.args_default, out)]
    /\ rectangular out
    /\ well_indexed out
    /\ (length (rows out) <= length (rows Scenario.df_three))%nat
    /\ (rows Scenario.df_three = [] -> columns out = [] /\ rows out = [])
    /\ (rows Scenario.df_three <> [] ->
        exists p,
          column_pos "IMAGE_STATUS" (columns out) = Some p
          /\ Forall (fun row =>
                       is_broken (cell p row) = true
                       /\ forall z, cell p row = StatusCode z -> 400 <= z)
               (rows out)).
Proof.
  apply (main_writes_only_broken Scenario.args_default
           (Scenario.os_reading Scenario.df_three)
           (fun _ => Scenario.net_a_test) Scenario.order_201
           Scenario.df_three).
  - reflexivity.
  - reflexivity.
  - reflexivity.
  - exact order_201_perm.
  - exact df_three_rectangular.
  - reflexivity.
  - split; reflexivity.
Defined.

Section BlankFacts.

Lemma imap_constant {A B} (P : A -> Prop) (f : nat -> A -> B) (c : B) l :
  Forall P l -> (forall i x, P x -> f i x = c) ->
  imap f l = map (fun _ => c) l.
Proof.
  intros Hl. revert f. induction Hl as [|x l Hx _ IH]; intros f Hf;
    [reflexivity|].
  rewrite imap_cons. simpl. rewrite (Hf 0%nat x Hx). f_equal.
  apply IH. intros i y Hy. apply Hf, Hy.
Qed.

Lemma map_constant_length {A B C} (c : C) (l : list A) (k : list B) :
  length l = length k -> map (fun _ => c) l = map (fun _ => c) k.
Proof.
  revert k. induction l as [|x l IH]; intros [|y k] H; try discriminate H;
    [reflexivity|].
  simpl. f_equal. apply IH. simpl in H. lia.
Qed.

Lemma task_status_blank net url timeout :
  is_blank url = true -> task_status net url timeout = EmptySentinel.
Proof.
  intros Hb. unfold task_status. rewrite (check_one_blank _ _ _ Hb).
  reflexivity.
Qed.

Lemma labelled_rows_all_empty put rws :
  labelled_rows put rws (map (fun _ => EmptySentinel) rws)
  = map (fun row => put row EmptySentinel) rws.
Proof.
  induction rws as [|row rws IH]; [reflexivity|].
  simpl map. rewrite labelled_rows_cons, IH. reflexivity.
Qed.

End BlankFacts.

(** X12.  When every cell of the configured column is blank (empty, not a
    string, or white space only) and the table has the default index, a
    run that completes sends nothing to the network and reports every row
    of the input, each labelled ["empty"]. *)
Theorem main_blank_column args os nets order df :
  read_csv os (arg_input args) = Ok df ->
  has_column df (arg_column args) = true ->
  0 < arg_workers args ->
  order ≡ₚ seq 0 (length (rows df)) ->
  rectangular df ->
  index df = range_index (length (rows df)) ->
  Forall (fun url => is_blank url = true)
    (column_values df (arg_column args)) ->
  output_ok os args (report_of args df nets) ->
  exists out,
    run_ending (main args os nets order) = Completed
    /\ run_network (main args os nets order) = map (fun _ => []) (rows df)
    /\ run_written (main args os nets order) = [(arg_output args, out)]
    /\ rows out = map (fun row => status_put df row EmptySentinel) (rows df)
    /\ run_stdout (main args os nets order)
       = [("Checked " ++ str_of_nat (length (rows df)) ++ " rows.")%string;
          ("Broken rows: " ++ str_of_nat (length (rows df)))%string;
          ("Wrote: " ++ arg_output args)%string].
Proof.
  intros Hread Hcol Hw Horder Hrect Hindex Hblank Hout.
  assert (Hidx : well_indexed df).
  { unfold well_indexed, range_index in *.
    rewrite Hindex, length_map, length_seq. reflexivity. }
  pose proof (column_values_length df _ Hcol) as Hlen.
  rewrite (main_completed args os nets order df Hread Hcol Hw Horder Hidx Hout).
  assert (Hlabels : row_labels args df nets
                    = map (fun _ => EmptySentinel) (rows df)).
  { rewrite (row_labels_range _ _ _ Hcol Hindex). unfold own_statuses.
    rewrite (imap_constant _ _ EmptySentinel _ Hblank)
      by (intros i url Hb; apply task_status_blank, Hb).
    apply map_constant_length, Hlen. }
  assert (Htraces :
            imap (fun i url =>
                    (run (check_one url (arg_timeout args) (nets i))).1)
              (column_values df (arg_column args))
            = map (fun _ => []) (rows df)).
  { transitivity (map (fun _ => @nil event)
                    (column_values df (arg_column args))).
    - apply (imap_constant _ _ _ _ Hblank).
      intros i url Hb. rewrite (check_one_blank _ _ _ Hb). reflexivity.
    - apply map_constant_length, Hlen. }
  assert (Hrows : rows (report_of args df nets)
                  = map (fun row => status_put df row EmptySentinel) (rows df)).
  { rewrite (report_of_rows _ _ _ Hrect), Hlabels.
    apply labelled_rows_all_empty. }
  exists (report_of args df nets). simpl.
  rewrite Htraces, Hrows, length_map. repeat split.
Qed.

Lemma main_blank_column_witness :
  exists out,
    run_ending (main Scenario.args_default
                  (Scenario.os_reading Scenario.df_blank)
                  (fun _ => Scenario.net_a_test) Scenario.order_201)
    = Completed
    /\ run_network (main Scenario.args_default
                      (Scenario.os_reading Scenario.df_blank)
                      (fun _ => Scenario.net_a_test) Scenario.order_201)
       = map (fun _ => []) (rows Scenario.df_blank)
    /\ run_written (main Scenario.args_default
                      (Scenario.os_reading Scenario.df_blank)
                      (fun _ => Scenario.net_a_test) Scenario.order_201)
       = [(arg_output Scenario.args_default, out)]
    /\ rows out
       = map (fun row => status_put Scenario.df_blank row EmptySentinel)
           (rows Scenario.df_blank)
    /\ run_stdout (main Scenario.args_default
                     (Scenario.os_reading Scenario.df_blank)
                     (fun _ => Scenario.net_a_test) Scenario.order_201)
       = [("Checked " ++ str_of_nat (length (rows Scenario.df_blank))
           ++ " rows.")%string;
          ("Broken rows: "
           ++ str_of_nat (length (rows Scenario.df_blank)))%string;
          ("Wrote: " ++ arg_output Scenario.args_default)%string].
Proof.
  apply (main_blank_column Scenario.args_default
           (Scenario.os_reading Scenario.df_blank)
           (fun _ => Scenario.net_a_test) Scenario.order_201
           Scenario.df_blank).
  - reflexivity.
  - reflexivity.
  - reflexivity.
  - exact order_201_perm.
  - repeat constructor.
  - reflexivity.
  - repeat constructor.
  - split; reflexivity.
Defined.

Section ReprFacts.

Lemma plain_char_repr c :
  plain_char c = true ->
  repr_char squote c = String c "" /\ Ascii.eqb squote c = false.
Proof.
  destruct c as [b0 b1 b2 b3 b4 b5 b6 b7].
  destruct b0, b1, b2, b3, b4, b5, b6, b7; intros H; vm_compute in H;
    try discriminate H; split; reflexivity.
Qed.

Lemma append_empty_r s : (s ++ "")%string = s.
Proof.
  induction s as [|c s IH]; [reflexivity|].
  change (String c (s ++ "")%string = String c s). rewrite IH. reflexivity.
Qed.

Lemma concat_empty_cons x xs :
  String.concat "" (x :: xs) = (x ++ String.concat "" xs)%string.
Proof.
  destruct xs as [|y xs]; [symmetry; apply append_empty_r|reflexivity].
Qed.

Lemma plain_chars_repr cs :
  forallb plain_char cs = true ->
  String.concat "" (map (repr_char squote) cs) = string_of_list_ascii cs
  /\ existsb (Ascii.eqb squote) cs = false.
Proof.
  induction cs as [|c cs IH]; [split; reflexivity|].
  simpl forallb. intros H. apply andb_true_iff in H as [Hc Hcs].
  destruct (plain_char_repr c Hc) as [Hr He].
  destruct (IH Hcs) as [IH1 IH2].
  split.
  - simpl map. rewrite concat_empty_cons, Hr, IH1. reflexivity.
  - change (existsb (Ascii.eqb squote) (c :: cs))
      with (Ascii.eqb squote c || existsb (Ascii.eqb squote) cs).
    rewrite He, IH2. reflexivity.
Qed.

(** A plain name is printed between single quotes, as it is. *)
Lemma repr_str_plain s :
  plain_name s = true -> repr_str s = ("'" ++ s ++ "'")%string.
Proof.
  unfold plain_name. intros H.
  destruct (plain_chars_repr _ H) as [Hc He].
  unfold repr_str, repr_quote. rewrite He. simpl andb. cbv iota.
  rewrite Hc, string_of_list_ascii_of_string. reflexivity.
Qed.

Lemma repr_list_plain cols :
  forallb plain_name cols = true ->
  repr_list cols
  = ("[" ++ String.concat ", " (map (fun c => "'" ++ c ++ "'") cols) ++ "]")%string.
Proof.
  intros H. unfold repr_list. do 3 f_equal.
  induction cols as [|c cols IH]; [reflexivity|].
  simpl in H. apply andb_true_iff in H as [Hc Hcols].
  simpl. rewrite (repr_str_plain c Hc), (IH Hcols). reflexivity.
Qed.

End ReprFacts.

(** X14.  When the configured column is missing and the names of the
    columns of the input are plain (printable ASCII, without single quote
    and backslash), the message of the [SystemExit] names the wanted
    column and lists every column of the input verbatim, each between
    single quotes, separated by a comma and a space, between brackets. *)
Theorem main_missing_column_lists_names args os nets order df :
  read_csv os (arg_input args) = Ok df ->
  arg_column args ∉ columns df ->
  forallb plain_name (columns df) = true ->
  run_ending (main args os nets order)
  = SystemExit
      ("Column '" ++ arg_column args ++ "' not found. Columns: ["
       ++ String.concat ", " (map (fun c => "'" ++ c ++ "'") (columns df))
       ++ "]")%string.
Proof.
  intros Hread Hcol Hplain. apply column_pos_elem_of in Hcol.
  unfold main, has_column. rewrite Hread, Hcol. simpl.
  rewrite (repr_list_plain _ Hplain). reflexivity.
Qed.

Lemma main_missing_column_lists_names_witness :
  run_ending (main Scenario.args_other_column
                (Scenario.os_reading Scenario.df_three)
                (fun _ => Scenario.net_a_test) Scenario.order_201)
  = SystemExit
      ("Column '" ++ arg_column Scenario.args_other_column
       ++ "' not found. Columns: ["
       ++ String.concat ", "
            (map (fun c => "'" ++ c ++ "'") (columns Scenario.df_three))
       ++ "]")%string.
Proof.
  apply (main_missing_column_lists_names Scenario.args_other_column
           (Scenario.os_reading Scenario.df_three)
           (fun _ => Scenario.net_a_test) Scenario.order_201
           Scenario.df_three).
  - reflexivity.
  - apply column_pos_elem_of. reflexivity.
  - reflexivity.
Defined.

Section HeadFacts.

Variable net : network.
Variable url : string.
Variable timeout : Z.

Lemma attempt_body_get t :
  exists g : bool,
    (attempt_body net url timeout t).1
    = t ++ ECall (head_request url timeout)
          :: (if g then [ECall (get_request url timeout)] else [])
    /\ (g = true <->
        exists resp, net t (head_request url timeout) = Ok resp
                     /\ wants_get (status_code resp) = true).
Proof.
  rewrite attempt_body_eq.
  destruct (net t _) as [r|e] eqn:Hh.
  - destruct (wants_get (status_code r)) eqn:Hw.
    + exists true. split.
      * destruct (net _ (get_request url timeout)); reflexivity.
      * split; [intros _; exists r; split; [reflexivity|exact Hw]|reflexivity].
    + exists false. split; [reflexivity|].
      split; [discriminate|]. intros [resp [[= <-] H]]. congruence.
  - exists false. split; [reflexivity|].
    split; [discriminate|]. intros [resp [H _]]. discriminate H.
Qed.

Lemma retry_loop_heads n : forall k t,
  (k + n = RETRIES)%nat ->
  exists gets,
    gets <> []
    /\ (retry_loop net url timeout (seq k (S n)) t).1
       = t ++ attempts_trace url timeout k gets
    /\ heads_decide net url timeout t k gets.
Proof.
  induction n as [|n IH]; intros k t Hk;
    rewrite <- cons_seq, retry_loop_cons;
    destruct (attempt_body_get t) as [g [Ht Hg]];
    destruct (attempt_body net url timeout t) as [t' [v|e]]; simpl in Ht;
    try (exists [g]; rewrite attempts_trace_one;
         split; [discriminate|]; split; [exact Ht|];
         split; [exact Hg|exact I]).
  - exists [g]. rewrite attempts_trace_one.
    replace (k <? RETRIES)%nat with false by (symmetry; apply Nat.ltb_ge; lia).
    destruct (is_RequestException e);
      (split; [discriminate|]); (split; [exact Ht|]);
      (split; [exact Hg|exact I]).
  - replace (k <? RETRIES)%nat with true by (symmetry; apply Nat.ltb_lt; lia).
    destruct (is_RequestException e).
    + destruct (IH (S k) (t' ++ [ESleep (backoff k)]) ltac:(lia))
        as [gets [Hne [Hshape Hheads]]].
      exists (g :: gets). split; [discriminate|]. split.
      * rewrite Hshape, Ht. destruct gets as [|g' gets]; [contradiction|].
        rewrite attempts_trace_cons, <- !app_assoc. reflexivity.
      * split; [exact Hg|]. rewrite Ht in Hheads.
        rewrite <- app_assoc in Hheads. exact Hheads.
    + exists [g]. rewrite attempts_trace_one.
      split; [discriminate|]. split; [exact Ht|]. split; [exact Hg|exact I].
Qed.

End HeadFacts.

(** X15.  In every attempt of every probe, on every network, the GET
    request is sent exactly when the HEAD request of that attempt was
    answered, and with a status that is 405 or at least 400 and not 404:
    never after a HEAD that raised or was answered with another status
    (such as 200 or 404), and always after one that was. *)
Theorem check_one_get_follows_head s timeout net :
  is_blank (VStr s) = false ->
  exists gets,
    (run (check_one (VStr s) timeout net)).1
    = attempts_trace (strip s) timeout 0 gets
    /\ heads_decide net (strip s) timeout [] 0 gets.
Proof.
  intros Hs. rewrite (check_one_nonblank _ _ _ Hs).
  destruct (retry_loop_heads net (strip s) timeout RETRIES 0 [] eq_refl)
    as [gets [_ [Hshape Hheads]]].
  exists gets. split; [exact Hshape|exact Hheads].
Qed.

Lemma check_one_get_follows_head_witness :
  exists gets,
    (run (check_one (VStr " http://a.test/x.png ") 10
            Scenario.net_flaky_405_404)).1
    = attempts_trace (strip " http://a.test/x.png ") 10 0 gets
    /\ heads_decide Scenario.net_flaky_405_404
         (strip " http://a.test/x.png ") 10 [] 0 gets.
Proof.
  apply (check_one_get_follows_head " http://a.test/x.png " 10
           Scenario.net_flaky_405_404).
  reflexivity.
Defined.

(** X16.  The bound of six requests is reached: when every HEAD request is
    answered with a status that calls for a GET and every GET request
    raises a [RequestException], the probe sends HEAD and GET three times,
    sleeping in between, and returns the error sentinel that carries the
    type name of the exception that the third GET raised; the status that
    HEAD reported is not returned. *)
Theorem check_one_worst_case net s timeout :
  is_blank (VStr s) = false ->
  (forall t, exists resp,
      net t (head_request (strip s) timeout) = Ok resp
      /\ wants_get (status_code resp) = true) ->
  (forall t, exists e,
      net t (get_request (strip s) timeout) = Raised e
      /\ is_RequestException e = true) ->
  let h := ECall (head_request (strip s) timeout) in
  let g := ECall (get_request (strip s) timeout) in
  exists e,
    net [h; g; ESleep (backoff 0); h; g; ESleep (backoff 1); h]
        (get_request (strip s) timeout) = Raised e
    /\ run (check_one (VStr s) timeout net)
       = ([h; g; ESleep (backoff 0); h; g; ESleep (backoff 1); h; g],
          Ok (ErrorSentinel (type_name e)))
    /\ [h; g; ESleep (backoff 0); h; g; ESleep (backoff 1); h; g]
       = attempts_trace (strip s) timeout 0 [true; true; true]
    /\ requests_made (run (check_one (VStr s) timeout net)).1
       = (2 * (RETRIES + 1))%nat.
Proof.
  intros Hs Hhead Hget h g.
  set (u := strip s) in *.
  destruct (Hhead []) as [r1 [H1 W1]].
  destruct (Hget [h]) as [e1 [G1 R1]].
  destruct (Hhead [h; g; ESleep (backoff 0)]) as [r2 [H2 W2]].
  destruct (Hget [h; g; ESleep (backoff 0); h]) as [e2 [G2 R2]].
  destruct (Hhead [h; g; ESleep (backoff 0); h; g; ESleep (backoff 1)])
    as [r3 [H3 W3]].
  destruct (Hget [h; g; ESleep (backoff 0); h; g; ESleep (backoff 1); h])
    as [e3 [G3 R3]].
  exists e3. split; [exact G3|].
  assert (Hrun : run (check_one (VStr s) timeout net)
                 = ([h; g; ESleep (backoff 0); h; g; ESleep (backoff 1); h; g],
                    Ok (ErrorSentinel (type_name e3)))).
  { rewrite (check_one_nonblank _ _ _ Hs). fold u.
    unfold run, attempts_range. change (seq 0 (RETRIES + 1)) with [0; 1; 2]%nat.
    rewrite retry_loop_cons, attempt_body_eq. fold h g.
    rewrite H1, W1. simpl app. rewrite G1, R1.
    change (0 <? RETRIES)%nat with true. cbv iota.
    rewrite retry_loop_cons, attempt_body_eq. simpl app. fold h g.
    rewrite H2, W2. rewrite G2, R2.
    change (1 <? RETRIES)%nat with true. cbv iota.
    rewrite retry_loop_cons, attempt_body_eq. simpl app. fold h g.
    rewrite H3, W3. rewrite G3, R3. reflexivity. }
  rewrite Hrun. split; [reflexivity|]. split; reflexivity.
Qed.

Lemma check_one_worst_case_witness :
  let h := ECall (head_request (strip "http://a.test/x.png") 10) in
  let g := ECall (get_request (strip "http://a.test/x.png") 10) in
  exists e,
    Scenario.net_head_503_get_fails
      [h; g; ESleep (backoff 0); h; g; ESleep (backoff 1); h]
      (get_request (strip "http://a.test/x.png") 10) = Raised e
    /\ run (check_one (VStr "http://a.test/x.png") 10
              Scenario.net_head_503_get_fails)
       = ([h; g; ESleep (backoff 0); h; g; ESleep (backoff 1); h; g],
          Ok (ErrorSentinel (type_name e)))
    /\ [h; g; ESleep (backoff 0); h; g; ESleep (backoff 1); h; g]
       = attempts_trace (strip "http://a.test/x.png") 10 0 [true; true; true]
    /\ requests_made
         (run (check_one (VStr "http://a.test/x.png") 10
                 Scenario.net_head_503_get_fails)).1
       = (2 * (RETRIES + 1))%nat.
Proof.
  apply (check_one_worst_case Scenario.net_head_503_get_fails
           "http://a.test/x.png" 10).
  - reflexivity.
  - intros t. exists (Response 503). split; reflexivity.
  - intros t. exists (Exc true "ReadTimeout"). split; reflexivity.
Defined.

(** X17.  No exception of a probe and no [KeyError] of the collecting
    loop ever ends a run.  When the table is read, has the column and the
    worker count is positive, then, in whatever order the tasks finish
    and whatever they raise, the run ends normally unless [os.makedirs]
    or [to_csv] raises, and then with the exception that one of the two
    raised. *)
Theorem main_ends_on_file_system_only args os nets order df :
  read_csv os (arg_input args) = Ok df ->
  has_column df (arg_column args) = true ->
  0 < arg_workers args ->
  order ≡ₚ seq 0 (length (rows df)) ->
  (run_ending (main args os nets order) = Completed
   <-> output_ok os args (report_of args df nets))
  /\ (forall e,
        run_ending (main args os nets order) = Uncaught e ->
        (wants_makedirs os (arg_output args) = true
         /\ makedirs os (dirname (arg_output args)) = Raised e)
        \/ to_csv os (arg_output args) (report_of args df nets) = Raised e)
  /\ (forall message,
        run_ending (main args os nets order) <> SystemExit message).
Proof.
  intros Hread Hcol Hw Horder.
  rewrite (main_dispatched args os nets order df Hread Hcol Hw Horder).
  cbv zeta. unfold output_ok.
  destruct (wants_makedirs os (arg_output args)).
  - destruct (makedirs os (dirname (arg_output args))) as [[]|e1].
    + destruct (to_csv os (arg_output args) (report_of args df nets))
        as [[]|e2]; simpl.
      * split; [split; auto|]. split; [discriminate|discriminate].
      * split; [split; [discriminate|intros [_ H]; discriminate H]|].
        split; [intros e [= <-]; right; reflexivity|discriminate].
    + simpl. split.
      * split; [discriminate|]. intros [H _]. discriminate (H eq_refl).
      * split; [intros e [= <-]; left; auto|discriminate].
  - destruct (to_csv os (arg_output args) (report_of args df nets))
      as [[]|e2]; simpl.
    + split; [split; [split; [discriminate|reflexivity]|reflexivity]|].
      split; [discriminate|discriminate].
    + split; [split; [discriminate|intros [_ H]; discriminate H]|].
      split; [intros e [= <-]; right; reflexivity|discriminate].
Qed.

Lemma main_ends_on_file_system_only_witness :
  (run_ending (main Scenario.args_default
                 (Scenario.os_unwritable Scenario.df_three)
                 Scenario.nets_one_fault Scenario.order_201) = Completed
   <-> output_ok (Scenario.os_unwritable Scenario.df_three)
         Scenario.args_default
         (report_of Scenario.args_default Scenario.df_three
            Scenario.nets_one_fault))
  /\ (forall e,
        run_ending (main Scenario.args_default
                      (Scenario.os_unwritable Scenario.df_three)
                      Scenario.nets_one_fault Scenario.order_201)
        = Uncaught e ->
        (wants_makedirs (Scenario.os_unwritable Scenario.df_three)
           (arg_output Scenario.args_default) = true
         /\ makedirs (Scenario.os_unwritable Scenario.df_three)
              (dirname (arg_output Scenario.args_default)) = Raised e)
        \/ to_csv (Scenario.os_unwritable Scenario.df_three)
             (arg_output Scenario.args_default)
             (report_of Scenario.args_default Scenario.df_three
                Scenario.nets_one_fault) = Raised e)
  /\ (forall message,
        run_ending (main Scenario.args_default
                      (Scenario.os_unwritable Scenario.df_three)
                      Scenario.nets_one_fault Scenario.order_201)
        <> SystemExit message).
Proof.
  apply (main_ends_on_file_system_only Scenario.args_default
           (Scenario.os_unwritable Scenario.df_three)
           Scenario.nets_one_fault Scenario.order_201 Scenario.df_three).
  - reflexivity.
  - reflexivity.
  - reflexivity.
  - exact order_201_perm.
Defined.

(** A task raises and the run completes all the same; the output path
    names a directory and the run ends with the exception of [to_csv]. *)
Example main_endings_examples :
  run_ending (main Scenario.args_default
                (Scenario.os_reading Scenario.df_three)
                Scenario.nets_one_fault Scenario.order_201) = Completed
  /\ run_ending (main Scenario.args_default
                   (Scenario.os_unwritable Scenario.df_three)
                   Scenario.nets_one_fault Scenario.order_201)
     = Uncaught (Exc false "IsADirectoryError").
Proof. split; reflexivity. Qed.
